(** * Agent training-loop infrastructure: a shallow embedding

    The development follows the Python sources of the agent framework:

    - [agent/interfaces/agent.py]              : [Agent], [build], shape inference;
    - [neodroidagent/.../value_agent.py]       : [ValueAgent.sample] and the epsilon schedule;
    - [neodroidagent/.../actor_critic_agent.py]: [ActorCriticAgent.rollout];
    - [agents/abstract/evo_agent.py]           : [EVOAgent.rollout];
    - [.../training/procedures/episodically.py]: [train_episodically].

    Python [int] is [Z]; Python [float] is idealised as a real number ([R]), so
    [math.exp] is [exp]; an object with mutable attributes is a record threaded
    through a state-and-exception monad; a pseudo-random draw is an explicit
    argument of the function that performs it. *)

From stdpp Require Import base list gmap strings.
From Stdlib Require Import ZArith Reals RiemannInt Lra Lia.

#[local] Open Scope Z_scope.

(** ** Python values and control effects *)

Inductive py_exn : Type :=
  | AssertionError
  | ValueError
  | TypeError
  | IndexError
  | AttributeError
  | ZeroDivisionError
  | InsufficientDataError.

Inductive outcome (A : Type) : Type :=
  | Returned (a : A)
  | Raised (e : py_exn).
Arguments Returned {A} a.
Arguments Raised {A} e.

(** A method of an object of type [S]: it may mutate the object and either
    returns or raises; the mutations made before a [raise] persist. *)
Definition M (S A : Type) : Type := S -> outcome A * S.

Definition ret {S A} (a : A) : M S A := fun s => (Returned a, s).
Definition raise {S A} (e : py_exn) : M S A := fun s => (Raised e, s).
Definition bind {S A B} (m : M S A) (k : A -> M S B) : M S B :=
  fun s => match m s with
           | (Returned a, s') => k a s'
           | (Raised e, s') => (Raised e, s')
           end.
Definition get {S} : M S S := fun s => (Returned s, s).
Definition gets {S A} (f : S -> A) : M S A := fun s => (Returned (f s), s).
Definition modify {S} (f : S -> S) : M S unit := fun s => (Returned tt, f s).
Definition py_assert {S} (b : bool) : M S unit :=
  if b then ret tt else raise AssertionError.

Declare Scope py_scope.
Delimit Scope py_scope with py.
Notation "x <- m ;; k" := (bind m (fun x => k))
  (at level 63, m at next level, right associativity) : py_scope.
Notation "m ;;; k" := (bind m (fun _ => k))
  (at level 63, right associativity) : py_scope.

#[global] Instance Rle_decision : RelDecision Rle := Rle_dec.
#[global] Instance Rlt_decision : RelDecision Rlt := Rlt_dec.
#[global] Instance Rgt_decision : RelDecision Rgt := Rgt_dec.
#[global] Instance Req_decision : EqDecision R := Req_dec_T.

(** The value of a shape attribute: [None], an [int] (the configuration uses
    [-1] for "infer it"), or a tuple of dimensions. *)
Inductive py_shape : Type :=
  | ShapeNone
  | ShapeInt (n : Z)
  | ShapeTuple (dims : list Z).

(** [x is None or x == -1] *)
Definition is_none_or_minus_one (x : py_shape) : bool :=
  match x with
  | ShapeNone => true
  | ShapeInt n => n =? -1
  | ShapeTuple _ => false
  end.

(** ** The environment descriptors read by [build] *)

Record ObservationSpace : Type := mkObservationSpace {
  observation_shape : list Z;      (* observation_space.shape *)
  observation_space_n : Z          (* observation_space.space.n *)
}.

(** [env.action_space] is either an instance of [ActionSpace] or some other
    space object exposing [shape] and [n]. *)
Inductive ActionSpaceObject : Type :=
  | ActionSpace (is_discrete : bool) (num_discrete_actions : Z) (n : Z)
  | OtherSpace (shape : list Z) (n : Z).

Record Environment : Type := mkEnvironment {
  observation_space : ObservationSpace;
  action_space : ActionSpaceObject
}.

(** ** [Agent] (agent/interfaces/agent.py)

    The attributes assigned by [Agent.__init__], but for [_log_directory], a
    path derived from the wall clock that no method below reads. *)

Record Agent : Type := mkAgent {
  _input_shape : py_shape;
  _output_shape : py_shape;
  _step_i : Z;
  _rollout_i : Z;
  _end_training : bool;
  _divide_by_zero_safety : R;
  _environment : option Environment
}.

(** [Agent.__init__] with no configuration object. *)
Definition Agent__init__ (environment : option Environment) : Agent :=
  {| _input_shape := ShapeNone;
     _output_shape := ShapeNone;
     _step_i := 0;
     _rollout_i := 0;
     _end_training := false;
     _divide_by_zero_safety := (/ 10 ^ 10)%R;
     _environment := environment |}.

Definition set_input_shape (v : py_shape) (a : Agent) : Agent :=
  {| _input_shape := v; _output_shape := _output_shape a; _step_i := _step_i a;
     _rollout_i := _rollout_i a; _end_training := _end_training a;
     _divide_by_zero_safety := _divide_by_zero_safety a;
     _environment := _environment a |}.

Definition set_output_shape (v : py_shape) (a : Agent) : Agent :=
  {| _input_shape := _input_shape a; _output_shape := v; _step_i := _step_i a;
     _rollout_i := _rollout_i a; _end_training := _end_training a;
     _divide_by_zero_safety := _divide_by_zero_safety a;
     _environment := _environment a |}.

Definition set_step_i (v : Z) (a : Agent) : Agent :=
  {| _input_shape := _input_shape a; _output_shape := _output_shape a; _step_i := v;
     _rollout_i := _rollout_i a; _end_training := _end_training a;
     _divide_by_zero_safety := _divide_by_zero_safety a;
     _environment := _environment a |}.

Definition set_environment (v : option Environment) (a : Agent) : Agent :=
  {| _input_shape := _input_shape a; _output_shape := _output_shape a;
     _step_i := _step_i a; _rollout_i := _rollout_i a;
     _end_training := _end_training a;
     _divide_by_zero_safety := _divide_by_zero_safety a;
     _environment := v |}.

(** [Agent._maybe_infer_input_output_shapes] *)
Definition _maybe_infer_input_output_shapes (env : Environment) : M Agent unit :=
  (self <- get ;;
   (if is_none_or_minus_one (_input_shape self) then
      if 1 <=? Z.of_nat (length (observation_shape (observation_space env))) then
        modify (set_input_shape (ShapeTuple (observation_shape (observation_space env))))
      else
        modify (set_input_shape
                  (ShapeTuple [observation_space_n (observation_space env); 1]))
    else ret tt) ;;;
   self <- get ;;
   if is_none_or_minus_one (_output_shape self) then
     match action_space env with
     | ActionSpace is_discrete num_discrete_actions n =>
         if is_discrete then
           modify (set_output_shape (ShapeTuple [num_discrete_actions; 1]))
         else
           modify (set_output_shape (ShapeTuple [n; 1]))
     | OtherSpace shape n =>
         if 1 <=? Z.of_nat (length shape) then
           modify (set_output_shape (ShapeTuple shape))
         else
           modify (set_output_shape (ShapeTuple [n; 1]))
     end
   else ret tt)%py.

(** The shapes the two inference branches read off an environment. *)
Definition inferred_input_shape (env : Environment) : py_shape :=
  if 1 <=? Z.of_nat (length (observation_shape (observation_space env)))
  then ShapeTuple (observation_shape (observation_space env))
  else ShapeTuple [observation_space_n (observation_space env); 1].

Definition inferred_output_shape (env : Environment) : py_shape :=
  match action_space env with
  | ActionSpace true num_discrete_actions _ => ShapeTuple [num_discrete_actions; 1]
  | ActionSpace false _ n => ShapeTuple [n; 1]
  | OtherSpace shape n =>
      if 1 <=? Z.of_nat (length shape) then ShapeTuple shape else ShapeTuple [n; 1]
  end.

(** [Agent._maybe_infer_sizes] *)
Definition _maybe_infer_sizes (env : Environment) : M Agent unit :=
  _maybe_infer_input_output_shapes env.

(** The abstract method [_build] of a concrete agent class. *)
Class AgentImpl : Type := {
  _build : M Agent unit
}.

(** [Agent.build] *)
Definition build `{AgentImpl} (env : Environment) : M Agent unit :=
  (modify (set_environment (Some env)) ;;;
   self <- get ;;
   match _environment self with
   | Some e => _maybe_infer_sizes e
   | None => raise AttributeError
   end ;;;
   _build)%py.

(** [_build] of the agent class at hand reads the shapes but does not assign
    them. *)
Definition build_keeps_shapes `{AgentImpl} : Prop :=
  forall s : Agent,
    _input_shape (snd (_build s)) = _input_shape s
    /\ _output_shape (snd (_build s)) = _output_shape s.

(** ** [ValueAgent] (neodroidagent/agents/model_free/q_learning/value_agent.py) *)

Record ExplorationSpecification : Type := mkExplorationSpecification {
  start : R;
  end_ : R;
  decay : R
}.

Section value_agent.
Context {Model ArchSpec Observation Action : Type}.

(** The attributes of a [ValueAgent]: those inherited from [Agent] and its
    own. [_current_eps_threshold] exists only once the schedule has been
    evaluated. *)
Record ValueAgent : Type := mkValueAgent {
  agent : Agent;
  _exploration_spec : ExplorationSpecification;
  _initial_observation_period : Z;
  _value_arch_spec : option ArchSpec;
  _value_model : option Model;
  _naive_max_policy : bool;
  _current_eps_threshold : option R
}.

Definition set_agent (v : Agent) (a : ValueAgent) : ValueAgent :=
  {| agent := v; _exploration_spec := _exploration_spec a;
     _initial_observation_period := _initial_observation_period a;
     _value_arch_spec := _value_arch_spec a; _value_model := _value_model a;
     _naive_max_policy := _naive_max_policy a;
     _current_eps_threshold := _current_eps_threshold a |}.

Definition set_current_eps_threshold (v : option R) (a : ValueAgent) : ValueAgent :=
  {| agent := agent a; _exploration_spec := _exploration_spec a;
     _initial_observation_period := _initial_observation_period a;
     _value_arch_spec := _value_arch_spec a; _value_model := _value_model a;
     _naive_max_policy := _naive_max_policy a;
     _current_eps_threshold := v |}.

(** [ValueAgent.__init__] over a freshly initialised [Agent]. *)
Definition ValueAgent__init__ (environment : option Environment) : ValueAgent :=
  {| agent := Agent__init__ environment;
     _exploration_spec :=
       {| start := (99 / 100)%R; end_ := (4 / 100)%R; decay := 10000%R |};
     _initial_observation_period := 0;
     _value_arch_spec := None;
     _value_model := None;
     _naive_max_policy := false;
     _current_eps_threshold := None |}.

(** The value the schedule assigns to [_current_eps_threshold] (lines 88-91):
    [end + (start - end) * math.exp(-1. * steps_taken / (decay + safety))]. *)
Definition eps_threshold (self : ValueAgent) (steps_taken : Z) : R :=
  let a := (start (_exploration_spec self) - end_ (_exploration_spec self))%R in
  let b := exp (-1 * IZR steps_taken /
                (decay (_exploration_spec self)
                 + _divide_by_zero_safety (agent self)))%R in
  (end_ (_exploration_spec self) + a * b)%R.

(** [ValueAgent.epsilon_random_exploration]; [random_random] is the value
    that [random.random()] yields when it is called. *)
Definition epsilon_random_exploration (steps_taken : Z) (random_random : R)
  : M ValueAgent bool :=
  (self <- get ;;
   py_assert (bool_decide (0 <= end_ (_exploration_spec self))%R
              && bool_decide (end_ (_exploration_spec self)
                              <= start (_exploration_spec self))%R) ;;;
   if steps_taken =? 0 then ret false
   else
     let sample := random_random in
     if bool_decide ((decay (_exploration_spec self)
                      + _divide_by_zero_safety (agent self))%R = 0%R)
     then raise ZeroDivisionError
     else
       modify (set_current_eps_threshold (Some (eps_threshold self steps_taken))) ;;;
       ret (bool_decide (sample > eps_threshold self steps_taken)%R))%py.

(** The action a call of [sample] returns, tagged with the [return]
    statement that produced it. *)
Inductive sampled : Type :=
  | FromModel (a : Action)
  | FromRandomProcess (a : list Z).

(** The abstract method [_sample_model]: a forward pass of the value model,
    which reads the agent and the state. *)
Class ValueAgentImpl : Type := {
  _sample_model : ValueAgent -> list Observation -> Action
}.

(** [ValueAgent._sample_random_process]; [draws i] is the [i]-th raw draw of
    [np.random.choice], reduced to an index of [np.arange(n)]. *)
Definition _sample_random_process (state : list Observation) (draws : nat -> nat)
  : M ValueAgent (list Z) :=
  (self <- get ;;
   match _output_shape (agent self) with
   | ShapeNone | ShapeInt _ => raise TypeError
   | ShapeTuple [] => raise IndexError
   | ShapeTuple (n :: _) =>
       if (n <=? 0) && negb (Nat.eqb (length state) 0) then raise ValueError
       else ret (map (fun i => Z.of_nat (draws i) mod n) (seq 0 (length state)))
   end)%py.

(** [ValueAgent.sample] with the default [metric_writer=None]. *)
Definition sample `{ValueAgentImpl} (state : list Observation)
    (disallow_random_sample : bool) (random_random : R) (draws : nat -> nat)
  : M ValueAgent sampled :=
  (modify (fun self => set_agent (set_step_i (_step_i (agent self) + 1) (agent self)) self) ;;;
   self <- get ;;
   s <- epsilon_random_exploration (_step_i (agent self)) random_random ;;
   self <- get ;;
   if (s && (_initial_observation_period self <? _step_i (agent self)))
      || disallow_random_sample
   then ret (FromModel (_sample_model self state))
   else
     a <- _sample_random_process state draws ;;
     ret (FromRandomProcess a))%py.

(** The agent after the first statement of [sample], [self._step_i += 1]. *)
Definition stepped (self : ValueAgent) : ValueAgent :=
  set_agent (set_step_i (_step_i (agent self) + 1) (agent self)) self.

(** The agent after the schedule has been evaluated inside [sample]: the step
    counter is incremented, and the threshold is assigned unless the new step
    count is [0]. *)
Definition scheduled (self : ValueAgent) : ValueAgent :=
  if _step_i (agent (stepped self)) =? 0 then stepped self
  else set_current_eps_threshold
         (Some (eps_threshold (stepped self) (_step_i (agent (stepped self)))))
         (stepped self).

(** The assertion of the schedule holds and the quotient is defined. *)
Definition schedule_ok (self : ValueAgent) : Prop :=
  (0 <= end_ (_exploration_spec self) <= start (_exploration_spec self))%R
  /\ (0 < decay (_exploration_spec self) + _divide_by_zero_safety (agent self))%R.

(** Whether a call of [sample] left through the greedy [return
    self._sample_model(state)]. *)
Definition exploits (r : outcome sampled * ValueAgent) : bool :=
  match fst r with
  | Returned (FromModel _) => true
  | _ => false
  end.

End value_agent.

Arguments ValueAgent : clear implicits.
Arguments sampled : clear implicits.
Arguments ValueAgentImpl : clear implicits.

(** ** Probability of an event on a uniform draw

    [probability E p]: for [u] drawn uniformly from the unit interval, as
    [random.random()] does, the event [E u] has probability [p], the integral
    of the indicator function of [E] over the interval. *)
Definition indicator (E : R -> bool) (u : R) : R := if E u then 1%R else 0%R.

Definition probability (E : R -> bool) (p : R) : Prop :=
  exists pr : Riemann_integrable (indicator E) 0 1, RiemannInt pr = p.

(** ** Transitions, the replay memory and the value-update target *)

(** Modelled from the spec: the record [Transition] of one interaction step,
    [{state, action, reward, next_state, terminal}] (no source file declares
    it). *)
Record Transition (Observation Action : Type) : Type := mkTransition {
  state : Observation;
  action : Action;
  reward : R;
  next_state : Observation;
  terminal : bool
}.
Arguments mkTransition {Observation Action}.
Arguments state {Observation Action}.
Arguments action {Observation Action}.
Arguments reward {Observation Action}.
Arguments next_state {Observation Action}.
Arguments terminal {Observation Action}.

Module ReplayMemory.
Section replay_memory.
Context {T : Type}.

(** Modelled from the spec: the class [ReplayMemory] (the configurations
    construct it as [U.ReplayBuffer(REPLAY_MEMORY_SIZE)], its source file is
    not available). It has a fixed integer [capacity], an ordered sequence
    [memory] of at most [capacity] transitions and a write cursor
    [position]. *)
Record t : Type := mk {
  capacity : nat;
  memory : list T;
  position : nat
}.

(** Modelled from the spec: construction of an empty [ReplayMemory]. *)
Definition new (capacity : nat) : t :=
  {| capacity := capacity; memory := []; position := 0 |}.

(** Modelled from the spec: [ReplayMemory.add] never fails; below capacity
    the transition is appended, at capacity it overwrites the entry under
    the write cursor, which is the oldest one; the cursor then advances
    cyclically. *)
Definition add (x : T) (m : t) : t :=
  {| capacity := capacity m;
     memory := if (length (memory m) <? capacity m)%nat
               then memory m ++ [x]
               else <[position m := x]> (memory m);
     position := (position m + 1) mod capacity m |}%nat.

(** Modelled from the spec: [ReplayMemory.size] returns the current length. *)
Definition size (m : t) : nat := length (memory m).

(** Modelled from the spec: [ReplayMemory.sample] fails with
    [InsufficientDataError] when fewer than [batch_size] entries are stored;
    otherwise it returns [batch_size] entries drawn independently, with
    replacement, from the stored ones. [draws i] is the [i]-th raw draw of
    the random generator, reduced to an index of the populated range. *)
Definition sample (batch_size : nat) (draws : nat -> nat) (m : t)
  : outcome (list T) :=
  if (length (memory m) <? batch_size)%nat then Raised InsufficientDataError
  else Returned (omap (fun i => memory m !! (draws i mod length (memory m))%nat)
                      (seq 0 batch_size)).

(** The memory after a sequence of [add] calls, first call first. *)
Definition add_all (xs : list T) (m : t) : t :=
  foldl (fun m x => add x m) m xs.

(** The stored entries read cyclically from the write cursor: once the
    memory is full this lists them from the oldest to the newest. *)
Definition from_cursor (m : t) : list T :=
  drop (position m) (memory m) ++ take (position m) (memory m).

End replay_memory.
Arguments t : clear implicits.
End ReplayMemory.

(** How a memory of capacity [c] that received the insertions [hist] relates
    to them: its length, its cursor and its contents read from the cursor. *)
Definition tracks {T : Type} (c : nat) (hist : list T) (m : ReplayMemory.t T) : Prop :=
  (ReplayMemory.capacity m = c
   /\ length (ReplayMemory.memory m) = length hist `min` c
   /\ ReplayMemory.position m = (if decide (c = 0) then length hist
                                 else length hist mod c)
   /\ (c = 0 \/ ReplayMemory.from_cursor m = drop (length hist - c) hist))%nat.

Module ValueUpdate.
Section value_update.
Context {Observation Action : Type}.

(** Modelled from the spec: the regression target of a value update,
    [reward + gamma * (1 - terminal) * target_value], with the Boolean
    [terminal] read as [1] or [0] (the source of the update step of the
    value agent is not available). *)
Definition regression_target (gamma : R) (target_value : R)
    (tr : Transition Observation Action) : R :=
  (reward tr + gamma * (1 - (if terminal tr then 1 else 0)) * target_value)%R.

(** Modelled from the spec: the targets of a sampled batch, the target value
    of each transition being the target model's output on its successor
    state. *)
Definition batch_targets (gamma : R) (target_model : Observation -> R)
    (batch : list (Transition Observation Action)) : list R :=
  map (fun tr => regression_target gamma (target_model (next_state tr)) tr) batch.

End value_update.
End ValueUpdate.

(** ** Rollout loops *)

(** [for t in count(1): ...; if c: break], started at counter value [t]: the
    body maps the loop state to the next one and tells whether it reached
    [break]. The loop has no other exit; [fuel] bounds the number of
    iterations that are unfolded, and [None] means that the loop is still
    running after [fuel] iterations. *)
Fixpoint for_count {S : Type} (body : Z -> S -> S * bool) (fuel : nat) (t : Z) (s : S)
  : option (Z * S) :=
  match fuel with
  | O => None
  | Datatypes.S fuel' =>
      let (s', stop) := body t s in
      if stop then Some (t, s') else for_count body fuel' (t + 1) s'
  end.

(** The loop state at the beginning of iteration [t + n] if no earlier
    iteration left the loop. *)
Fixpoint iterations {S : Type} (body : Z -> S -> S * bool) (n : nat) (t : Z) (s : S) : S :=
  match n with
  | O => s
  | Datatypes.S n' => iterations body n' (t + 1) (fst (body t s))
  end.

(** Whether the iteration with counter value [t + n] reaches [break]. *)
Definition breaks_at {S : Type} (body : Z -> S -> S * bool) (n : nat) (t : Z) (s : S) : bool :=
  snd (body (t + Z.of_nat n) (iterations body n t s)).

(** [np.clip(signal, -1.0, 1.0)] on a vector of signals. *)
Definition np_clip (signal : list R) : list R :=
  map (fun x => Rmax (-1) (Rmin x 1)) signal.

(** [np.array(episode_signal).mean()] *)
Definition np_mean (xs : list (list R)) : R :=
  (foldr Rplus 0 (concat xs) / INR (length (concat xs)))%R.

Module ActorCriticAgent.
Section actor_critic_agent.
Context {Observation Action Internals EnvState : Type}.

Record EnvironmentSnapshot : Type := mkSnapshot {
  observables : Observation;
  signal : list R;
  terminated : list bool
}.

(** The attributes [rollout] reads or writes; the models, optimisers and the
    transition buffer are kept in [internals]. *)
Record t : Type := mk {
  _update_i : Z;
  _step_i : Z;
  _signal_clipping : bool;
  internals : Internals
}.

(** The collaborators of [rollout]: the abstract [_sample_model] (to which
    [sample] delegates), [update], the transition buffer and the environment. *)
Class Impl : Type := {
  _sample_model : Observation -> bool -> t -> Action * t;
  update : t -> t;
  add_transition :
    Observation -> Action -> list R -> Observation -> list bool -> t -> t;
  react : Action -> EnvState -> EnvironmentSnapshot * EnvState
}.

(** [ActorCriticAgent.sample] *)
Definition sample `{Impl} (state : Observation) (disallow_random_sample : bool)
  : t -> Action * t :=
  _sample_model state disallow_random_sample.

(** The local variables of [rollout] together with the two objects it
    mutates. *)
Record loop_state : Type := mkLoop {
  loop_self : t;
  loop_environment : EnvState;
  loop_obs : Observation;
  episode_signal : list (list R);
  episode_length : Z
}.

(** The body of the loop of [rollout] (lines 195-226). *)
Definition rollout_body `{Impl} (train : bool) (t : Z) (l : loop_state)
  : loop_state * bool :=
  let self := mk (_update_i (loop_self l)) (_step_i (loop_self l) + 1)
                 (_signal_clipping (loop_self l)) (internals (loop_self l)) in
  let (action, self) := sample (loop_obs l) (negb train) self in
  let (snapshot, environment) := react action (loop_environment l) in
  let successor_state := observables snapshot in
  let signal := signal snapshot in
  let terminated := terminated snapshot in
  let signal := if _signal_clipping self then np_clip signal else signal in
  let self := if train
              then add_transition (loop_obs l) action signal successor_state
                                  terminated self
              else self in
  let state := successor_state in
  let self := if train then update self else self in
  let episode_signal := episode_signal l ++ [signal] in
  if forallb (fun b => b) terminated
  then (mkLoop self environment state episode_signal t, true)
  else (mkLoop self environment state episode_signal (episode_length l), false).

(** The snapshot with which the environment answers in the iteration that
    starts from the loop state [l]. *)
Definition answer `{Impl} (train : bool) (l : loop_state) : EnvironmentSnapshot :=
  let self := mk (_update_i (loop_self l)) (_step_i (loop_self l) + 1)
                 (_signal_clipping (loop_self l)) (internals (loop_self l)) in
  fst (react (fst (sample (loop_obs l) (negb train) self)) (loop_environment l)).

(** The loop state with which [rollout] enters its loop. *)
Definition enter (initial_state : EnvironmentSnapshot) (environment : EnvState)
    (self : t) : loop_state :=
  mkLoop (mk (_update_i self + 1) (_step_i self) (_signal_clipping self)
             (internals self))
         environment (observables initial_state) [] 0.

(** [ActorCriticAgent.rollout] with [metric_writer=None] ([render] only draws
    the environment and the progress bar): the result is
    [((es, el), agent, environment)], or [None] while the loop is running. *)
Definition rollout `{Impl} (fuel : nat) (initial_state : EnvironmentSnapshot)
    (environment : EnvState) (train : bool) (self : t)
  : option (R * Z * t * EnvState) :=
  let self := mk (_update_i self + 1) (_step_i self) (_signal_clipping self)
                 (internals self) in
  let state := observables initial_state in
  match for_count (rollout_body train) fuel 1
                  (mkLoop self environment state [] 0) with
  | None => None
  | Some (_, l) =>
      let es := np_mean (episode_signal l) in
      let el := episode_length l in
      Some (es, el, loop_self l, loop_environment l)
  end.

End actor_critic_agent.
Arguments t : clear implicits.
Arguments loop_state : clear implicits.
Arguments EnvironmentSnapshot : clear implicits.
Arguments Impl : clear implicits.
End ActorCriticAgent.

Module EVOAgent.
Section evo_agent.
Context {Observation Internals EnvState : Type}.

Record t : Type := mk {
  _rollout_i : Z;
  internals : Internals
}.

(** The collaborators of [rollout]: [sample_action] as a concrete
    evolutionary agent overrides it (the value is [int(...[0])] of its
    result), [update], and the environment's [step], which answers with
    [(state, signal, terminated)]. *)
Class Impl : Type := {
  sample_action : Observation -> t -> Z * t;
  update : t -> t;
  step : Z -> EnvState -> (Observation * R * bool) * EnvState
}.

Record loop_state : Type := mkLoop {
  loop_self : t;
  loop_environment : EnvState;
  loop_obs : Observation;
  loop_episode_signal : R;
  loop_episode_length : Z
}.

(** The body of the loop of [rollout] (lines 41-52). *)
Definition rollout_body `{Impl} (t : Z) (l : loop_state) : loop_state * bool :=
  let (action, self) := sample_action (loop_obs l) (loop_self l) in
  let '((state, signal, terminated), environment) :=
    step action (loop_environment l) in
  let episode_signal := (loop_episode_signal l + signal)%R in
  if terminated
  then (mkLoop self environment state episode_signal t, true)
  else (mkLoop self environment state episode_signal (loop_episode_length l), false).

(** The [terminated] flag with which the environment answers in the iteration
    that starts from the loop state [l]. *)
Definition answer `{Impl} (l : loop_state) : bool :=
  snd (fst (step (fst (sample_action (loop_obs l) (loop_self l)))
                 (loop_environment l))).

(** The loop state with which [rollout] enters its loop. *)
Definition enter (initial_state : Observation) (environment : EnvState)
    (train : bool) (self : t) : loop_state :=
  mkLoop (if train then mk (_rollout_i self + 1) (internals self) else self)
         environment initial_state 0%R 0.

(** [EVOAgent.rollout] ([render] only draws the environment): the result is
    [((episode_signal, episode_length), agent, environment)], or [None] while
    the loop is running. *)
Definition rollout `{Impl} (fuel : nat) (initial_state : Observation)
    (environment : EnvState) (train : bool) (self : t)
  : option (R * Z * t * EnvState) :=
  let self := if train then mk (_rollout_i self + 1) (internals self) else self in
  let episode_signal := 0%R in
  let episode_length := 0 in
  let state := initial_state in
  match for_count rollout_body fuel 1
                  (mkLoop self environment state episode_signal episode_length) with
  | None => None
  | Some (_, l) =>
      let self := if train then update (loop_self l) else loop_self l in
      Some (loop_episode_signal l, loop_episode_length l, self,
            loop_environment l)
  end.

End evo_agent.
Arguments t : clear implicits.
Arguments loop_state : clear implicits.
Arguments Impl : clear implicits.
End EVOAgent.

(** ** [train_episodically] (training/procedures/episodically.py) *)

(** [range(lo, hi)] *)
Definition py_range (lo hi : Z) : list Z := seqZ lo (hi - lo).

Section episodically.
Context {World Observation : Type}.

(** The agent and the environment as [train_episodically] uses them; [World]
    holds the state of both. [agent_rollout initial_state render writer] is
    [agent.rollout(initial_state, environment, render=..., metric_writer=...)],
    [writer] telling whether a writer is passed rather than [None]. *)
Class Training : Type := {
  environment_reset : World -> Observation * World;
  agent_rollout : Observation -> bool -> bool -> World -> World;
  agent_end_training : World -> bool
}.

(** [x and e % x == 0] for an integer frequency [x]. *)
Definition every (frequency episode_i : Z) : bool :=
  negb (frequency =? 0) && (episode_i mod frequency =? 0).

(** The loop [for episode_i in E] of [train_episodically]; next to the final
    state it yields the values of [episode_i] for which [agent.rollout] was
    called, in call order. *)
Fixpoint train_loop `{Training} (render_frequency stat_frequency : Z)
    (E : list Z) (w : World) : list Z * World :=
  match E with
  | [] => ([], w)
  | episode_i :: E' =>
      let (initial_state, w) := environment_reset w in
      let render := if every render_frequency episode_i then true else false in
      let writer := if every stat_frequency episode_i then true else false in
      let w := agent_rollout initial_state render writer w in
      if agent_end_training w then ([episode_i], w)
      else
        let (episodes, w) := train_loop render_frequency stat_frequency E' w in
        (episode_i :: episodes, w)
  end.

(** [train_episodically] *)
Definition train_episodically `{Training} (rollouts render_frequency stat_frequency : Z)
    (w : World) : list Z * World :=
  let E := py_range 1 rollouts in
  train_loop render_frequency stat_frequency E w.

End episodically.
Arguments Training : clear implicits.

(** * Concrete instances used in examples *)

(** A training world that only counts the calls of [agent.rollout]. *)
#[local] Instance counting_training : Training nat unit :=
  {| environment_reset := fun w => (tt, w);
     agent_rollout := fun _ _ _ w => Datatypes.S w;
     agent_end_training := fun _ => false |}.

(** An agent class whose [_build] constructs nothing. *)
Definition plain_build : AgentImpl := {| _build := ret tt |}.

(** Two environments with different observation and action shapes. *)
Definition env_a : Environment :=
  {| observation_space := {| observation_shape := [4]; observation_space_n := 0 |};
     action_space := ActionSpace true 2 2 |}.

Definition env_b : Environment :=
  {| observation_space := {| observation_shape := [8]; observation_space_n := 0 |};
     action_space := OtherSpace [3] 3 |}.

(** A value agent over unit observations whose model always answers [0]. *)
Definition zero_model : ValueAgentImpl unit unit unit Z :=
  {| _sample_model := fun _ _ => 0 |}.

(** A freshly constructed value agent: exploration specification
    [(0.99, 0.04, 10000)], step counter [0], no threshold yet. *)
Definition fresh_value_agent : ValueAgent unit unit :=
  ValueAgent__init__ None.

(** Four distinct transitions of a two-state environment. *)
Definition transition_A : Transition Z Z := mkTransition 0 0 0%R 1 false.
Definition transition_B : Transition Z Z := mkTransition 1 0 0%R 0 false.
Definition transition_C : Transition Z Z := mkTransition 0 1 1%R 1 false.
Definition transition_D : Transition Z Z := mkTransition 1 1 1%R 1 true.

(** An actor-critic agent without internals, in an environment with one
    sub-environment that counts its steps and reports [terminated] from the
    step on at which [stops] holds. *)
Definition counting_actor_critic (stops : nat -> bool)
  : ActorCriticAgent.Impl unit unit unit nat :=
  {| ActorCriticAgent._sample_model := fun _ _ self => (tt, self);
     ActorCriticAgent.update := fun self => self;
     ActorCriticAgent.add_transition := fun _ _ _ _ _ self => self;
     ActorCriticAgent.react := fun _ e =>
       (ActorCriticAgent.mkSnapshot tt [1%R] [stops e], Datatypes.S e) |}.

Definition first_snapshot : ActorCriticAgent.EnvironmentSnapshot unit :=
  ActorCriticAgent.mkSnapshot tt [] [false].

Definition fresh_actor_critic : ActorCriticAgent.t unit :=
  ActorCriticAgent.mk 0 0 false tt.

(** The same environment for an evolutionary agent that always plays [0]. *)
Definition counting_evo (stops : nat -> bool) : EVOAgent.Impl unit unit nat :=
  {| EVOAgent.sample_action := fun _ self => (0, self);
     EVOAgent.update := fun self => self;
     EVOAgent.step := fun _ e => ((tt, 1%R, stops e), Datatypes.S e) |}.

Definition fresh_evo : EVOAgent.t unit := EVOAgent.mk 0 tt.

(** * Further instances *)

(** A value agent that is built for two discrete actions and observes for its
    first five steps. *)
Definition observing_value_agent : ValueAgent unit unit :=
  {| agent := set_output_shape (ShapeTuple [2; 1]) (Agent__init__ None);
     _exploration_spec :=
       {| start := (99 / 100)%R; end_ := (4 / 100)%R; decay := 10000%R |};
     _initial_observation_period := 5;
     _value_arch_spec := None;
     _value_model := None;
     _naive_max_policy := false;
     _current_eps_threshold := None |}.

(** A value agent whose exploration specification ends above its start. *)
Definition inverted_value_agent : ValueAgent unit unit :=
  {| agent := Agent__init__ None;
     _exploration_spec :=
       {| start := (4 / 100)%R; end_ := (99 / 100)%R; decay := 10000%R |};
     _initial_observation_period := 0;
     _value_arch_spec := None;
     _value_model := None;
     _naive_max_policy := false;
     _current_eps_threshold := None |}.

(** ** What the collaborators of a rollout may be known to leave alone *)

(** The collaborators of [ActorCriticAgent.rollout] do not assign the two
    counters [_update_i] and [_step_i]. *)
Definition keeps_counters {Observation Action Internals EnvState : Type}
    `{!ActorCriticAgent.Impl Observation Action Internals EnvState} : Prop :=
  (forall o b s,
     ActorCriticAgent._update_i (snd (ActorCriticAgent._sample_model o b s))
     = ActorCriticAgent._update_i s
     /\ ActorCriticAgent._step_i (snd (ActorCriticAgent._sample_model o b s))
        = ActorCriticAgent._step_i s)
  /\ (forall s,
        ActorCriticAgent._update_i (ActorCriticAgent.update s)
        = ActorCriticAgent._update_i s
        /\ ActorCriticAgent._step_i (ActorCriticAgent.update s)
           = ActorCriticAgent._step_i s)
  /\ (forall o a r o' d s,
        ActorCriticAgent._update_i (ActorCriticAgent.add_transition o a r o' d s)
        = ActorCriticAgent._update_i s
        /\ ActorCriticAgent._step_i (ActorCriticAgent.add_transition o a r o' d s)
           = ActorCriticAgent._step_i s).

(** The collaborators of [ActorCriticAgent.rollout] do not assign
    [_signal_clipping]. *)
Definition keeps_signal_clipping {Observation Action Internals EnvState : Type}
    `{!ActorCriticAgent.Impl Observation Action Internals EnvState} : Prop :=
  (forall o b s,
     ActorCriticAgent._signal_clipping (snd (ActorCriticAgent._sample_model o b s))
     = ActorCriticAgent._signal_clipping s)
  /\ (forall s,
        ActorCriticAgent._signal_clipping (ActorCriticAgent.update s)
        = ActorCriticAgent._signal_clipping s)
  /\ (forall o a r o' d s,
        ActorCriticAgent._signal_clipping
          (ActorCriticAgent.add_transition o a r o' d s)
        = ActorCriticAgent._signal_clipping s).

(** The environment answers every action with at least one signal. *)
Definition signals_nonempty {Observation Action Internals EnvState : Type}
    `{!ActorCriticAgent.Impl Observation Action Internals EnvState} : Prop :=
  forall (a : Action) (e : EnvState),
    ActorCriticAgent.signal (fst (ActorCriticAgent.react a e)) <> [].

(** The signal with which the environment answers in the iteration of
    [EVOAgent.rollout] that starts from the loop state [l]. *)
Definition evo_signal {Observation Internals EnvState : Type}
    `{!EVOAgent.Impl Observation Internals EnvState}
    (l : EVOAgent.loop_state Observation Internals EnvState) : R :=
  snd (fst (fst (EVOAgent.step
                   (fst (EVOAgent.sample_action (EVOAgent.loop_obs l)
                           (EVOAgent.loop_self l)))
                   (EVOAgent.loop_environment l)))).

(** The signals of the first [n] iterations of [EVOAgent.rollout]. *)
Definition evo_signals {Observation Internals EnvState : Type}
    `{!EVOAgent.Impl Observation Internals EnvState} (n : nat)
    (l : EVOAgent.loop_state Observation Internals EnvState) : list R :=
  map (fun k => evo_signal (iterations EVOAgent.rollout_body k 1 l)) (seq 0 n).

(** ** A training world that records the arguments of [agent.rollout] *)

(** The world of [T] paired with the list of [(render, writer)] arguments that
    [agent.rollout] has received so far, oldest first. *)
Definition recording {World Observation : Type} (T : Training World Observation)
  : Training (World * list (bool * bool)) Observation :=
  {| environment_reset := fun wl =>
       let (o, w) := @environment_reset _ _ T (fst wl) in (o, (w, snd wl));
     agent_rollout := fun o render writer wl =>
       (@agent_rollout _ _ T o render writer (fst wl), snd wl ++ [(render, writer)]);
     agent_end_training := fun wl => @agent_end_training _ _ T (fst wl) |}.

(** A training world whose agent has already been asked to stop. *)
Definition stopped_training : Training nat unit :=
  {| environment_reset := fun w => (tt, w);
     agent_rollout := fun _ _ _ w => Datatypes.S w;
     agent_end_training := fun _ => true |}.

(** An actor-critic agent that clips signals, in an environment whose signals
    exceed the clipping range and which terminates at its third step. *)
Definition loud_actor_critic : ActorCriticAgent.Impl unit unit unit nat :=
  {| ActorCriticAgent._sample_model := fun _ _ self => (tt, self);
     ActorCriticAgent.update := fun self => self;
     ActorCriticAgent.add_transition := fun _ _ _ _ _ self => self;
     ActorCriticAgent.react := fun _ e =>
       (ActorCriticAgent.mkSnapshot tt [5%R; (-7)%R] [Nat.leb 2 e], Datatypes.S e) |}.

Definition clipping_actor_critic : ActorCriticAgent.t unit :=
  ActorCriticAgent.mk 0 0 true tt.

(** The counting actor-critic agent with an [update] and a transition buffer
    that count their calls in the agent's internals. *)
Definition learning_actor_critic (stops : nat -> bool)
  : ActorCriticAgent.Impl unit unit nat nat :=
  {| ActorCriticAgent._sample_model := fun _ _ self => (tt, self);
     ActorCriticAgent.update := fun self =>
       ActorCriticAgent.mk (ActorCriticAgent._update_i self)
         (ActorCriticAgent._step_i self) (ActorCriticAgent._signal_clipping self)
         (Datatypes.S (ActorCriticAgent.internals self));
     ActorCriticAgent.add_transition := fun _ _ _ _ _ self =>
       ActorCriticAgent.mk (ActorCriticAgent._update_i self)
         (ActorCriticAgent._step_i self) (ActorCriticAgent._signal_clipping self)
         (ActorCriticAgent.internals self + 10)%nat;
     ActorCriticAgent.react := fun _ e =>
       (ActorCriticAgent.mkSnapshot tt [1%R] [stops e], Datatypes.S e) |}.

(** The same agent with neither learning step. *)
Definition idle_actor_critic (stops : nat -> bool)
  : ActorCriticAgent.Impl unit unit nat nat :=
  {| ActorCriticAgent._sample_model := fun _ _ self => (tt, self);
     ActorCriticAgent.update := fun self => self;
     ActorCriticAgent.add_transition := fun _ _ _ _ _ self => self;
     ActorCriticAgent.react := fun _ e =>
       (ActorCriticAgent.mkSnapshot tt [1%R] [stops e], Datatypes.S e) |}.

(** ** [Agent.run] (agent/interfaces/agent.py) *)

Module AgentRun.
Section agent_run.
Context {Observation Action Self EnvState : Type}.

(** The collaborators of [run]: the abstract [sample_action], and the
    environment's [reset] and [act], the latter answering with
    [(state, signal, terminated)] ([info] is not used, [render] only draws). *)
Class Impl : Type := {
  sample_action : Observation -> Self -> Action * Self;
  reset : EnvState -> Observation * EnvState;
  act : Action -> EnvState -> (Observation * R * bool) * EnvState
}.

Record frame_state : Type := mkFrame {
  frame_self : Self;
  frame_environment : EnvState;
  frame_obs : Observation
}.

(** The body of the loop over frames (lines 88-96). *)
Definition frame_body `{Impl} (frame_i : Z) (l : frame_state) : frame_state * bool :=
  let (action, self) := sample_action (frame_obs l) (frame_self l) in
  let '((state, signal, terminated), environment) :=
    act action (frame_environment l) in
  (mkFrame self environment state, terminated).

(** One pass of the body of the loop over episodes (lines 81-96): the
    environment is reset and frames are played until it answers
    [terminated]. *)
Definition episode `{Impl} (fuel : nat) (self : Self) (environment : EnvState)
  : option (Self * EnvState) :=
  let (state, environment) := reset environment in
  match for_count frame_body fuel 1 (mkFrame self environment state) with
  | None => None
  | Some (_, l) => Some (frame_self l, frame_environment l)
  end.

(** [Agent.run]: [for episode_i in count(1)] around the loop over frames;
    [Some] would be the state with which [run] returns, [None] means that it
    is still running after [fuel] iterations. *)
Fixpoint run `{Impl} (fuel : nat) (episode_i : Z) (self : Self)
    (environment : EnvState) : option (Self * EnvState) :=
  match fuel with
  | O => None
  | Datatypes.S fuel' =>
      match episode fuel' self environment with
      | None => None
      | Some (self, environment) => run fuel' (episode_i + 1) self environment
      end
  end.

End agent_run.
Arguments Impl : clear implicits.
Arguments frame_state : clear implicits.
End AgentRun.

(** ** Insertion-ordered dictionaries

    A Python [dict] whose iteration order is observed: the list of its items
    in insertion order, each key occurring once. *)

Section odict.
Context {K V : Type} `{EqDecision K}.

(** [d.get(k)] *)
Fixpoint od_get (k : K) (d : list (K * V)) : option V :=
  match d with
  | [] => None
  | (k', v) :: d' => if decide (k = k') then Some v else od_get k d'
  end.

(** [d[k] = v]: the value of an existing key is replaced where it stands, a
    new key is appended. *)
Fixpoint od_set (k : K) (v : V) (d : list (K * V)) : list (K * V) :=
  match d with
  | [] => [(k, v)]
  | (k', v') :: d' =>
      if decide (k = k') then (k, v) :: d' else (k', v') :: od_set k v d'
  end.

(** [list(d.keys())] *)
Definition od_keys (d : list (K * V)) : list K := map fst d.

End odict.

(** ** [EnvModel] (neodroidagent/agents/numpy_agents/rl_models/_utils.py) *)

Module EnvModel.
Section env_model.
Context {State Action Reward : Type}.
Context `{EqDecision State, EqDecision Action, EqDecision Reward}.

(** [self._model]: a [defaultdict] from [(s, a)] to a [defaultdict] from
    [(r, s_)] to a count, with default [0]. *)
Definition t : Type := list ((State * Action) * list ((Reward * State) * Z)).

(** [EnvModel.__init__] *)
Definition __init__ : t := [].

(** [self._model[(s, a)]]: the lookup of a missing key inserts an empty inner
    dictionary and answers with it. *)
Definition inner (s : State) (a : Action) (m : t)
  : list ((Reward * State) * Z) * t :=
  match od_get (s, a) m with
  | Some d => (d, m)
  | None => ([], od_set (s, a) [] m)
  end.

(** [EnvModel.__setitem__]: [self._model[(s, a)][(r, s_)] = value] *)
Definition __setitem__ (key : State * Action * Reward * State) (value : Z) (m : t) : t :=
  let '(s, a, r, s_) := key in
  let (d, m) := inner s a m in
  od_set (s, a) (od_set (r, s_) value d) m.

(** [EnvModel.__getitem__]: [return self._model[(s, a)][(r, s_)]]; the lookup
    of a missing outcome inserts it with count [0]. *)
Definition __getitem__ (key : State * Action * Reward * State) (m : t) : Z * t :=
  let '(s, a, r, s_) := key in
  let (d, m) := inner s a m in
  match od_get (r, s_) d with
  | Some v => (v, m)
  | None => (0, od_set (s, a) (od_set (r, s_) 0 d) m)
  end.

(** [M[key] += 1] *)
Definition increment (m : t) (key : State * Action * Reward * State) : t :=
  let (v, m) := __getitem__ key m in
  __setitem__ key (v + 1) m.

(** [EnvModel.state_action_pairs] *)
Definition state_action_pairs (m : t) : list (State * Action) := od_keys m.

(** [EnvModel.reward_outcome_pairs] *)
Definition reward_outcome_pairs (s : State) (a : Action) (m : t)
  : list (Reward * State) * t :=
  let (d, m) := inner s a m in
  (od_keys d, m).


(** [EnvModel.state_action_pairs_leading_to_outcome] *)
Definition state_action_pairs_leading_to_outcome (outcome : State) (m : t)
  : list (State * Action) * t :=
  foldl (fun acc sa =>
           let (ro, m) := reward_outcome_pairs (fst sa) (snd sa) (snd acc) in
           let outcomes := map snd ro in
           if bool_decide (outcome ∈ outcomes) then (fst acc ++ [sa], m)
           else (fst acc, m))
        ([], m) (state_action_pairs m).

(** The count stored for [key], [0] if there is none. *)
Definition stored (key : State * Action * Reward * State) (m : t) : Z :=
  let '(s, a, r, s_) := key in
  match od_get (s, a) m with
  | Some d => default 0 (od_get (r, s_) d)
  | None => 0
  end.

End env_model.
End EnvModel.
Arguments EnvModel.t : clear implicits.

(** A model over integer states, actions and rewards that has counted three
    observed transitions, two of them equal. *)
Definition counted_model : EnvModel.t Z Z Z :=
  foldl EnvModel.increment EnvModel.__init__ [(0, 1, 5, 1); (0, 1, 5, 1); (0, 1, 0, 0)].

(** ** [action_stats] and [obs_stats]
       (neodroidagent/agents/numpy_agents/rl_models/_utils.py) *)

Module GymStats.

(** An entry of [n_actions_per_dim] or [n_obs_per_dim]: an [int] or
    [np.inf]. *)
Inductive extent : Type :=
  | Finite (n : Z)
  | Infinite.

#[global] Instance extent_eq_dec : EqDecision extent.
Proof. solve_decision. Defined.










End GymStats.



(** ** [StatisticCollection] (utilities/statistics/statistic_collection.py) *)

Module StatisticCollection.

(** The two exceptions the class raises. *)
Inductive error : Type :=
  | KeyError
  | AttributeError.

Section statistic_collection.
Context {Measures Aggregator : Type}.

(** The constructor of the class [StatisticAggregator], which these sources
    import: [StatisticAggregator(measures=..., keep_measure_history=...)]. *)
Class Impl : Type := {
  StatisticAggregator : Measures -> bool -> Aggregator
}.

Record t : Type := mk {
  _statistics : gmap string Aggregator;
  _measures : Measures;
  _keep_measure_history : bool
}.

(** [StatisticCollection.__init__] *)
Definition __init__ `{Impl} (stats : list string) (measures : Measures)
    (keep_measure_history : bool) : t :=
  {| _statistics :=
       foldl (fun d stat => <[stat := StatisticAggregator measures keep_measure_history]> d)
             ∅ stats;
     _measures := measures;
     _keep_measure_history := keep_measure_history |}.

(** [StatisticCollection.add_statistic] *)
Definition add_statistic `{Impl} (stat_name : string) (self : t) : t :=
  {| _statistics :=
       <[stat_name := StatisticAggregator (_measures self) (_keep_measure_history self)]>
         (_statistics self);
     _measures := _measures self;
     _keep_measure_history := _keep_measure_history self |}.

(** [StatisticCollection.remove_statistic]: [del] of a missing key raises
    [KeyError]. *)
Definition remove_statistic (stat_name : string) (self : t) : error + t :=
  match _statistics self !! stat_name with
  | Some _ =>
      inr {| _statistics := delete stat_name (_statistics self);
             _measures := _measures self;
             _keep_measure_history := _keep_measure_history self |}
  | None => inl KeyError
  end.

(** [StatisticCollection.__len__] *)
Definition __len__ (self : t) : nat := size (_statistics self).

(** [StatisticCollection.statistics] *)
Definition statistics (self : t) : gmap string Aggregator := _statistics self.

(** [StatisticCollection.__getattr__] *)
Definition __getattr__ (stat_name : string) (self : t) : error + Aggregator :=
  match _statistics self !! stat_name with
  | Some aggregator => inr aggregator
  | None => inl AttributeError
  end.

End statistic_collection.
Arguments t : clear implicits.
Arguments Impl : clear implicits.
End StatisticCollection.

(** Aggregators that are the list of the values appended to them; a new one
    is empty. *)
Definition list_aggregators : StatisticCollection.Impl unit (list Z) :=
  {| StatisticCollection.StatisticAggregator := fun _ _ => [] |}.

(** The collection of the two default statistics. *)
Definition default_collection : StatisticCollection.t unit (list Z) :=
  @StatisticCollection.__init__ _ _ list_aggregators
    ["signals"%string; "lengths"%string] tt false.

(** ** [Agent.__parse_set_attr] (agent/interfaces/agent.py)

    Keyword names are taken to be ASCII, as the upper-case variables of a
    configuration module are; [str.isupper] and [str.lower] are modelled on
    the ASCII letters. *)

Module ParseSetAttr.

Definition is_upper_letter (c : Ascii.ascii) : bool :=
  (65 <=? Ascii.nat_of_ascii c)%nat && (Ascii.nat_of_ascii c <=? 90)%nat.

Definition is_lower_letter (c : Ascii.ascii) : bool :=
  (97 <=? Ascii.nat_of_ascii c)%nat && (Ascii.nat_of_ascii c <=? 122)%nat.

Fixpoint has (p : Ascii.ascii -> bool) (s : string) : bool :=
  match s with
  | EmptyString => false
  | String c s' => p c || has p s'
  end.

(** [k.isupper()]: some cased character, and every cased character upper
    case. *)
Definition isupper (k : string) : bool :=
  has is_upper_letter k && negb (has is_lower_letter k).

Definition lower_letter (c : Ascii.ascii) : Ascii.ascii :=
  if is_upper_letter c then Ascii.ascii_of_nat (Ascii.nat_of_ascii c + 32) else c.

(** [k.lower()] *)
Fixpoint lower (k : string) : string :=
  match k with
  | EmptyString => EmptyString
  | String c k' => String (lower_letter c) (lower k')
  end.

(** The name of the attribute that the loop body assigns for the keyword [k]:
    [f'_{k.lower()}'] if [k.isupper()], else [k]. *)
Definition attribute (k : string) : string :=
  if isupper k then String.append "_" (lower k) else k.

Section parse_set_attr.
Context {Value : Type}.


End parse_set_attr.
End ParseSetAttr.

(** * Properties *)

(** ** The episode loop of [train_episodically] *)

Section episodically_facts.
Context {World Observation : Type} `{!Training World Observation}.

Lemma py_range_length (lo hi : Z) :
  Z.of_nat (length (py_range lo hi)) = Z.max 0 (hi - lo).
Proof. unfold py_range. rewrite length_seqZ. lia. Qed.

Lemma train_loop_prefix (render_frequency stat_frequency : Z) (E : list Z) (w : World) :
  fst (train_loop render_frequency stat_frequency E w) `prefix_of` E.
Proof.
  revert w. induction E as [|episode_i E IH]; intros w; simpl.
  - apply prefix_nil.
  - destruct (environment_reset w) as [initial_state w1].
    destruct (agent_end_training _) eqn:Hstop; simpl.
    + apply prefix_cons, prefix_nil.
    + specialize (IH (agent_rollout initial_state
                        (if every render_frequency episode_i then true else false)
                        (if every stat_frequency episode_i then true else false) w1)).
      destruct (train_loop _ _ E _) as [episodes w2]; simpl in *.
      by apply prefix_cons.
Qed.

Lemma train_loop_all (render_frequency stat_frequency : Z) (E : list Z) (w : World) :
  (forall w', agent_end_training w' = false) ->
  fst (train_loop render_frequency stat_frequency E w) = E.
Proof.
  intros Hnever. revert w. induction E as [|episode_i E IH]; intros w; simpl.
  - reflexivity.
  - destruct (environment_reset w) as [initial_state w1].
    rewrite Hnever.
    specialize (IH (agent_rollout initial_state
                      (if every render_frequency episode_i then true else false)
                      (if every stat_frequency episode_i then true else false) w1)).
    destruct (train_loop _ _ E _) as [episodes w2]; simpl in *.
    by rewrite IH.
Qed.

(** C10: for [rollouts = n >= 1], [train_episodically] calls [agent.rollout]
    for a prefix of [range(1, n)], hence for at most [n - 1] episodes and
    never for [n]; when the agent never asks to stop, it runs exactly the
    [n - 1] episodes [1, ..., n - 1]. *)
Theorem train_episodically_runs_at_most_n_minus_1
    (n render_frequency stat_frequency : Z) (w : World) :
  1 <= n ->
  let episodes := fst (train_episodically n render_frequency stat_frequency w) in
  episodes `prefix_of` py_range 1 n
  /\ Z.of_nat (length episodes) <= n - 1
  /\ Z.of_nat (length episodes) <> n
  /\ ((forall w', agent_end_training w' = false) ->
      episodes = py_range 1 n /\ Z.of_nat (length episodes) = n - 1).
Proof.
  intros Hn episodes.
  assert (Hpre : episodes `prefix_of` py_range 1 n) by apply train_loop_prefix.
  assert (Hlen : Z.of_nat (length episodes) <= n - 1).
  { apply prefix_length in Hpre.
    pose proof (py_range_length 1 n). lia. }
  repeat split; [done | done | lia | | ].
  - by apply train_loop_all.
  - subst episodes. unfold train_episodically.
    rewrite train_loop_all by done. rewrite py_range_length. lia.
Qed.

End episodically_facts.

Lemma train_episodically_runs_at_most_n_minus_1_witness :
  fst (train_episodically 4 100 10 0%nat) = [1; 2; 3]
  /\ snd (train_episodically 4 100 10 0%nat) = 3%nat
  /\ Z.of_nat (length (fst (train_episodically 4 100 10 0%nat))) <= 4 - 1.
Proof.
  split; [reflexivity | split; [reflexivity |]].
  apply (train_episodically_runs_at_most_n_minus_1 4 100 10 0%nat). lia.
Defined.

(** ** Shape inference in [Agent.build] *)

Section build_facts.
Context `{!AgentImpl}.

Lemma infer_shapes_returns (env : Environment) (a : Agent) :
  fst (_maybe_infer_input_output_shapes env a) = Returned tt.
Proof.
  unfold _maybe_infer_input_output_shapes, bind, get, modify, ret.
  destruct (is_none_or_minus_one (_input_shape a)); simpl;
    repeat (match goal with |- context [if ?b then _ else _] => destruct b end; simpl);
    try reflexivity;
    destruct (action_space env) as [[] ? ?|? ?]; simpl;
    repeat (match goal with |- context [if ?b then _ else _] => destruct b end; simpl);
    reflexivity.
Qed.

Lemma infer_shapes_unbuilt (env : Environment) (a : Agent) :
  is_none_or_minus_one (_input_shape a) = true ->
  is_none_or_minus_one (_output_shape a) = true ->
  _input_shape (snd (_maybe_infer_input_output_shapes env a)) = inferred_input_shape env
  /\ _output_shape (snd (_maybe_infer_input_output_shapes env a))
     = inferred_output_shape env.
Proof.
  intros Hin Hout.
  unfold _maybe_infer_input_output_shapes, bind, get, modify, ret,
    inferred_input_shape, inferred_output_shape.
  rewrite Hin.
  destruct (1 <=? Z.of_nat (length (observation_shape (observation_space env))));
    simpl; rewrite Hout;
    destruct (action_space env) as [[] ? ?|shape ?]; simpl; try done;
    destruct (1 <=? Z.of_nat (length shape)); done.
Qed.

Lemma infer_shapes_built (env : Environment) (a : Agent) :
  is_none_or_minus_one (_input_shape a) = false ->
  is_none_or_minus_one (_output_shape a) = false ->
  _maybe_infer_input_output_shapes env a = (Returned tt, a).
Proof.
  intros Hin Hout.
  unfold _maybe_infer_input_output_shapes, bind, get, modify, ret.
  rewrite Hin. simpl. by rewrite Hout.
Qed.

Lemma build_unfold (env : Environment) (a : Agent) :
  build env a
  = _build (snd (_maybe_infer_input_output_shapes env (set_environment (Some env) a))).
Proof.
  unfold build, bind, get, modify, _maybe_infer_sizes. simpl.
  pose proof (infer_shapes_returns env (set_environment (Some env) a)) as Hret.
  destruct (_maybe_infer_input_output_shapes env _) as [o a']; simpl in *.
  by subst o.
Qed.

Lemma inferred_shapes_are_tuples (env : Environment) :
  is_none_or_minus_one (inferred_input_shape env) = false
  /\ is_none_or_minus_one (inferred_output_shape env) = false.
Proof.
  unfold inferred_input_shape, inferred_output_shape.
  destruct (1 <=? _); destruct (action_space env) as [[] ? ?|shape ?]; simpl; try done;
    destruct (1 <=? _); done.
Qed.

Lemma build_built (env : Environment) (a : Agent) :
  build_keeps_shapes ->
  is_none_or_minus_one (_input_shape a) = false ->
  is_none_or_minus_one (_output_shape a) = false ->
  build env a = _build (set_environment (Some env) a)
  /\ _input_shape (snd (build env a)) = _input_shape a
  /\ _output_shape (snd (build env a)) = _output_shape a.
Proof.
  intros Hkeep Hin Hout. rewrite build_unfold.
  rewrite infer_shapes_built by done. simpl.
  destruct (Hkeep (set_environment (Some env) a)) as [-> ->]. done.
Qed.

(** C9 (amended): a first [build] on an agent whose shapes are unset ([None]
    or [-1]) sets both from the environment's observation and action spaces.
    Every later [build], whatever the shapes of the environment it is given,
    skips the inference: it raises nothing of its own (its outcome is that of
    [_build]) and leaves both shapes as the first call set them. *)
Theorem build_infers_shapes_once (env : Environment) (later : list Environment)
    (a : Agent) :
  build_keeps_shapes ->
  is_none_or_minus_one (_input_shape a) = true ->
  is_none_or_minus_one (_output_shape a) = true ->
  let a1 := snd (build env a) in
  _input_shape a1 = inferred_input_shape env
  /\ _output_shape a1 = inferred_output_shape env
  /\ (forall env', build env' a1 = _build (set_environment (Some env') a1))
  /\ let an := foldl (fun s e => snd (build e s)) a1 later in
     _input_shape an = inferred_input_shape env
     /\ _output_shape an = inferred_output_shape env.
Proof.
  intros Hkeep Hin Hout a1.
  assert (H1 : _input_shape a1 = inferred_input_shape env
               /\ _output_shape a1 = inferred_output_shape env).
  { subst a1. rewrite build_unfold.
    destruct (Hkeep (snd (_maybe_infer_input_output_shapes env
                            (set_environment (Some env) a)))) as [-> ->].
    by apply infer_shapes_unbuilt. }
  destruct H1 as [Hi Ho].
  destruct (inferred_shapes_are_tuples env) as [Ti To].
  split; [done | split; [done | split]].
  - intros env'. apply build_built; [done | by rewrite Hi | by rewrite Ho].
  - clearbody a1. revert a1 Hi Ho.
    induction later as [|e later IH]; intros a1 Hi Ho; simpl; [done |].
    destruct (build_built e a1) as (_ & Hi' & Ho');
      [done | by rewrite Hi | by rewrite Ho |].
    apply IH; congruence.
Qed.

End build_facts.

Lemma plain_build_keeps_shapes : @build_keeps_shapes plain_build.
Proof. intros s. split; reflexivity. Qed.

Lemma build_infers_shapes_once_witness :
  is_none_or_minus_one (_input_shape (Agent__init__ None)) = true
  /\ _input_shape (snd (@build plain_build env_b
                          (snd (@build plain_build env_a (Agent__init__ None)))))
     = ShapeTuple [4].
Proof.
  split; [reflexivity |].
  exact (proj1 (proj2 (proj2 (proj2
           (@build_infers_shapes_once plain_build env_a [env_b] (Agent__init__ None)
              plain_build_keeps_shapes eq_refl eq_refl))))).
Defined.

(** C9, as stated, fails: after [build(env_a)] a second [build(env_b)], whose
    observation and action shapes conflict with the inferred ones, returns
    normally; the agent keeps the shapes of [env_a]. *)
Lemma build_twice_conflicting_returns :
  let a1 := snd (@build plain_build env_a (Agent__init__ None)) in
  inferred_input_shape env_b <> _input_shape a1
  /\ inferred_output_shape env_b <> _output_shape a1
  /\ fst (@build plain_build env_b a1) = Returned tt
  /\ _input_shape (snd (@build plain_build env_b a1)) = ShapeTuple [4]
  /\ _output_shape (snd (@build plain_build env_b a1)) = ShapeTuple [2; 1].
Proof. repeat split; try reflexivity; discriminate. Qed.

(** ** Integrals of two-valued step functions on the unit interval *)

Section step_integrals.
#[local] Open Scope R_scope.

Lemma open_constant_step (f : R -> R) (a b k : R) :
  a <= b -> (forall x, a < x < b -> f x = k) -> IsStepFun f a b.
Proof.
  intros Hab Hf. exists [a; b]. exists [k].
  unfold adapted_couple. repeat split.
  - intros i Hi. simpl in Hi. assert (i = 0%nat) as -> by lia. simpl. exact Hab.
  - simpl. rewrite Rmin_left; [reflexivity | exact Hab].
  - simpl. rewrite Rmax_right; [reflexivity | exact Hab].
  - intros i Hi. simpl in Hi. assert (i = 0%nat) as -> by lia. simpl.
    intros x Hx. apply Hf, Hx.
Qed.

Lemma open_constant_integrable (f : R -> R) (a b k : R) :
  a <= b -> (forall x, a < x < b -> f x = k) -> Riemann_integrable f a b.
Proof.
  intros Hab Hf eps.
  exists (mkStepFun (open_constant_step f a b k Hab Hf)).
  exists (mkStepFun (StepFun_P4 a b 0)).
  split.
  - intros t _. simpl. unfold fct_cte. rewrite Rminus_diag, Rabs_R0. lra.
  - rewrite StepFun_P18, Rmult_0_l, Rabs_R0. apply cond_pos.
Qed.

Lemma open_constant_integral (f : R -> R) (a b k : R)
    (pr : Riemann_integrable f a b) :
  a <= b -> (forall x, a < x < b -> f x = k) -> RiemannInt pr = k * (b - a).
Proof.
  intros Hab Hf.
  rewrite <- (RiemannInt_P15 (RiemannInt_P14 a b k)).
  apply RiemannInt_P18; [exact Hab |]. intros x Hx. unfold fct_cte. by apply Hf.
Qed.

Lemma two_piece_integral (f : R -> R) (c k1 k2 : R) :
  0 <= c <= 1 ->
  (forall x, 0 < x < c -> f x = k1) ->
  (forall x, c < x < 1 -> f x = k2) ->
  exists pr : Riemann_integrable f 0 1, RiemannInt pr = k1 * c + k2 * (1 - c).
Proof.
  intros [H0 H1] Hl Hr.
  pose (pl := open_constant_integrable f 0 c k1 H0 Hl).
  pose (pr := open_constant_integrable f c 1 k2 H1 Hr).
  exists (RiemannInt_P24 pl pr).
  rewrite <- (RiemannInt_P26 pl pr (RiemannInt_P24 pl pr)).
  rewrite (open_constant_integral f 0 c k1 pl H0 Hl).
  rewrite (open_constant_integral f c 1 k2 pr H1 Hr). ring.
Qed.

Lemma probability_above (E : R -> bool) (c : R) :
  0 <= c <= 1 ->
  (forall u, 0 < u < 1 -> E u = bool_decide (u > c)) ->
  probability E (1 - c) /\ probability (fun u => negb (E u)) c.
Proof.
  intros Hc HE. split.
  - destruct (two_piece_integral (indicator E) c 0 1 Hc) as [pr Hpr].
    + intros x Hx. unfold indicator. rewrite HE by lra.
      by rewrite bool_decide_eq_false_2 by lra.
    + intros x Hx. unfold indicator. rewrite HE by lra.
      by rewrite bool_decide_eq_true_2 by lra.
    + exists pr. rewrite Hpr. ring.
  - destruct (two_piece_integral (indicator (fun u => negb (E u))) c 1 0 Hc)
      as [pr Hpr].
    + intros x Hx. unfold indicator. rewrite HE by lra.
      by rewrite bool_decide_eq_false_2 by lra.
    + intros x Hx. unfold indicator. rewrite HE by lra.
      by rewrite bool_decide_eq_true_2 by lra.
    + exists pr. rewrite Hpr. ring.
Qed.

End step_integrals.

(** ** The epsilon schedule and [ValueAgent.sample] *)

Section value_agent_facts.
Context {Model ArchSpec Observation Action : Type}.
Context `{!ValueAgentImpl Model ArchSpec Observation Action}.
Implicit Types self : ValueAgent Model ArchSpec.

#[local] Open Scope R_scope.

Lemma epsilon_at_zero self (u : R) :
  0 <= end_ (_exploration_spec self) <= start (_exploration_spec self) ->
  epsilon_random_exploration 0 u self = (Returned false, self).
Proof.
  intros [H0 H1]. unfold epsilon_random_exploration, bind, get, py_assert.
  rewrite !bool_decide_eq_true_2 by done. reflexivity.
Qed.

Lemma epsilon_at_nonzero self (t : Z) (u : R) :
  schedule_ok self -> t <> 0%Z ->
  epsilon_random_exploration t u self
  = (Returned (bool_decide (u > eps_threshold self t)),
     set_current_eps_threshold (Some (eps_threshold self t)) self).
Proof.
  intros [[H0 H1] Hd] Ht. unfold epsilon_random_exploration, bind, get, py_assert.
  rewrite !bool_decide_eq_true_2 by done. simpl.
  apply Z.eqb_neq in Ht. rewrite Ht.
  rewrite bool_decide_eq_false_2 by lra. reflexivity.
Qed.

Lemma epsilon_assert_fails self (t : Z) (u : R) :
  ~ (0 <= end_ (_exploration_spec self) <= start (_exploration_spec self)) ->
  epsilon_random_exploration t u self = (Raised AssertionError, self).
Proof.
  intros Hbad. unfold epsilon_random_exploration, bind, get, py_assert.
  destruct (bool_decide (0 <= end_ (_exploration_spec self))) eqn:E0;
    destruct (bool_decide (end_ (_exploration_spec self)
                           <= start (_exploration_spec self))) eqn:E1;
    try reflexivity.
  apply bool_decide_eq_true in E0, E1. tauto.
Qed.

(** The random process reads the agent and leaves it as it is. *)
Lemma random_process_state self (state : list Observation) (draws : nat -> nat) :
  snd (_sample_random_process state draws self) = self.
Proof.
  unfold _sample_random_process, bind, get.
  destruct (_output_shape (agent self)) as [| |[|n dims]]; try reflexivity.
  destruct (_ && _); reflexivity.
Qed.

Lemma sample_run self (state : list Observation) (disallow : bool) (u : R)
    (draws : nat -> nat) :
  schedule_ok self ->
  let t := (_step_i (agent self) + 1)%Z in
  sample state disallow u draws self
  = if ((if (t =? 0)%Z then false else bool_decide (u > eps_threshold self t))
        && (_initial_observation_period self <? t)%Z) || disallow
    then (Returned (FromModel (_sample_model (scheduled self) state)), scheduled self)
    else match _sample_random_process state draws (scheduled self) with
         | (Returned a, s) => (Returned (FromRandomProcess a), s)
         | (Raised e, s) => (Raised e, s)
         end.
Proof.
  intros Hok t. unfold sample, bind at 1, modify. fold (stepped self).
  unfold bind at 1, get at 1. change (_step_i (agent (stepped self))) with t.
  assert (Hok' : schedule_ok (stepped self)) by exact Hok.
  unfold scheduled. change (_step_i (agent (stepped self))) with t.
  destruct (Z.eqb_spec t 0) as [Ht|Ht].
  - unfold bind at 1. rewrite Ht, epsilon_at_zero by apply Hok'.
    unfold bind at 1, get at 1. simpl.
    destruct disallow; [reflexivity |].
    unfold bind, ret. destruct (_sample_random_process _ _ _) as [[a|e] s]; reflexivity.
  - unfold bind at 1. rewrite epsilon_at_nonzero by done.
    unfold bind at 1, get at 1. simpl.
    change (eps_threshold (stepped self) t) with (eps_threshold self t).
    change (_step_i (agent self) + 1)%Z with t.
    destruct (_ || _); [reflexivity |].
    unfold bind, ret. destruct (_sample_random_process _ _ _) as [[a|e] s]; reflexivity.
Qed.

End value_agent_facts.

Section schedule_facts.
Context {Model ArchSpec : Type}.
Implicit Types self : ValueAgent Model ArchSpec.

#[local] Open Scope R_scope.

Lemma exp_neg_le_1 (x : R) : 0 <= x -> exp (- x) <= 1.
Proof.
  intros [Hx | <-].
  - rewrite <- exp_0. left. apply exp_increasing. lra.
  - rewrite Ropp_0, exp_0. lra.
Qed.


Lemma exp_neg_antitone (x y : R) : x <= y -> exp (- y) <= exp (- x).
Proof.
  intros [Hxy | <-]; [| lra]. left. apply exp_increasing. lra.
Qed.

(** [x * exp(-x) < 1], from [1 + x <= exp x]. *)
Lemma exp_neg_decay (x : R) : 0 < x -> x * exp (- x) < 1.
Proof.
  intros Hx. rewrite exp_Ropp.
  pose proof (exp_ineq1_le x) as Hexp. pose proof (exp_pos x) as Hpos.
  apply (Rmult_lt_reg_r (exp x)); [exact Hpos |].
  rewrite Rmult_assoc, Rinv_l by lra. lra.
Qed.

Lemma eps_threshold_eq self (t : Z) :
  eps_threshold self t
  = end_ (_exploration_spec self)
    + (start (_exploration_spec self) - end_ (_exploration_spec self))
      * exp (- (IZR t / (decay (_exploration_spec self)
                         + _divide_by_zero_safety (agent self)))).
Proof. unfold eps_threshold. simpl. do 3 f_equal. unfold Rdiv. ring. Qed.

Lemma eps_threshold_bounds self (t : Z) :
  schedule_ok self -> (0 <= t)%Z ->
  end_ (_exploration_spec self) <= eps_threshold self t
                                <= start (_exploration_spec self).
Proof.
  intros [[H0 H1] Hd] Ht. rewrite eps_threshold_eq.
  set (d := decay _ + _) in *.
  assert (Hx : 0 <= IZR t / d).
  { apply Rmult_le_pos; [by apply IZR_le | left; by apply Rinv_0_lt_compat]. }
  pose proof (exp_neg_le_1 _ Hx). pose proof (exp_pos (- (IZR t / d))). nra.
Qed.

Lemma eps_threshold_antitone self (t t' : Z) :
  schedule_ok self -> (t <= t')%Z -> eps_threshold self t' <= eps_threshold self t.
Proof.
  intros [[H0 H1] Hd] Ht. rewrite !eps_threshold_eq.
  set (d := decay _ + _) in *.
  assert (Hx : IZR t / d <= IZR t' / d).
  { apply Rmult_le_compat_r; [left; by apply Rinv_0_lt_compat | by apply IZR_le]. }
  pose proof (exp_neg_antitone _ _ Hx). nra.
Qed.

Lemma eps_threshold_limit self (eps : R) :
  schedule_ok self -> 0 < eps ->
  exists T : Z, forall t : Z, (T <= t)%Z ->
    Rabs (eps_threshold self t - end_ (_exploration_spec self)) < eps.
Proof.
  intros [[H0 H1] Hd] Heps.
  set (d := decay _ + _) in *.
  set (a := start (_exploration_spec self) - end_ (_exploration_spec self)).
  assert (Ha : 0 <= a) by (unfold a; lra).
  exists (Z.max 1 (up (a * d / eps))). intros t Ht.
  rewrite eps_threshold_eq. fold d a.
  replace (end_ (_exploration_spec self) + a * exp (- (IZR t / d))
           - end_ (_exploration_spec self)) with (a * exp (- (IZR t / d))) by ring.
  pose proof (exp_pos (- (IZR t / d))) as Hpos.
  rewrite Rabs_right by nra.
  assert (Ht1 : 1 <= IZR t) by (apply IZR_le; lia).
  assert (Htup : a * d / eps < IZR t).
  { destruct (archimed (a * d / eps)) as [Hup _].
    apply Rlt_le_trans with (IZR (up (a * d / eps))); [lra | apply IZR_le; lia]. }
  assert (Hx : 0 < IZR t / d) by (apply Rdiv_lt_0_compat; lra).
  pose proof (exp_neg_decay _ Hx) as Hdecay.
  assert (Hax : a < eps * (IZR t / d)).
  { apply (Rmult_lt_reg_r (d / eps)); [apply Rdiv_lt_0_compat; lra |].
    replace (a * (d / eps)) with (a * d / eps) by (unfold Rdiv; ring).
    replace (eps * (IZR t / d) * (d / eps)) with (IZR t) by (field; lra).
    exact Htup. }
  nra.
Qed.

(** C2 (amended): with [0 <= end <= start] and [decay + safety > 0], a call of
    the schedule at a step count [t <> 0] stores the threshold
    [end + (start - end) * exp(-t / (decay + safety))]; the call at [t = 0]
    returns [False] before any threshold is computed and leaves the agent as
    it is. The formula itself has the value [start] at [0], is non-increasing
    in [t >= 0] and tends to [end] as [t] grows. *)
Theorem epsilon_schedule self :
  schedule_ok self ->
  let d := decay (_exploration_spec self) + _divide_by_zero_safety (agent self) in
  let epsilon := fun t : Z =>
    end_ (_exploration_spec self)
    + (start (_exploration_spec self) - end_ (_exploration_spec self))
      * exp (- (IZR t / d)) in
  (forall (t : Z) (u : R), t <> 0%Z ->
     _current_eps_threshold (snd (epsilon_random_exploration t u self))
     = Some (epsilon t))
  /\ (forall u : R, epsilon_random_exploration 0 u self = (Returned false, self))
  /\ epsilon 0%Z = start (_exploration_spec self)
  /\ (forall t t' : Z, (0 <= t <= t')%Z -> epsilon t' <= epsilon t)
  /\ (forall eps : R, 0 < eps ->
        exists T : Z, forall t : Z, (T <= t)%Z ->
          Rabs (epsilon t - end_ (_exploration_spec self)) < eps).
Proof.
  intros Hok d epsilon.
  assert (Heq : forall t, epsilon t = eps_threshold self t).
  { intros t. subst epsilon d. simpl. by rewrite eps_threshold_eq. }
  repeat split.
  - intros t u Ht. rewrite epsilon_at_nonzero by done. simpl. by rewrite Heq.
  - intros u. apply epsilon_at_zero, Hok.
  - subst epsilon. simpl. unfold Rdiv. rewrite Rmult_0_l, Ropp_0, exp_0. ring.
  - intros t t' [_ Htt']. rewrite !Heq. by apply eps_threshold_antitone.
  - intros eps Heps. destruct (eps_threshold_limit self eps Hok Heps) as [T HT].
    exists T. intros t Ht. rewrite Heq. by apply HT.
Qed.

End schedule_facts.

Lemma fresh_value_agent_schedule_ok : schedule_ok fresh_value_agent.
Proof. unfold schedule_ok. simpl. lra. Qed.

Lemma epsilon_schedule_witness :
  schedule_ok fresh_value_agent
  /\ (4 / 100 + (99 / 100 - 4 / 100) * exp (- (IZR 0 / (10000 + / 10 ^ 10)))
      = 99 / 100)%R.
Proof.
  split; [exact fresh_value_agent_schedule_ok |].
  exact (proj1 (proj2 (proj2
           (epsilon_schedule fresh_value_agent fresh_value_agent_schedule_ok)))).
Defined.

(** C2, as stated, fails at [t = 0]: the call returns [False] at once and no
    threshold is computed; on a fresh agent the attribute stays unset instead
    of holding [start]. *)
Lemma epsilon_not_computed_at_step_zero :
  epsilon_random_exploration 0 (1 / 2) fresh_value_agent
  = (Returned false, fresh_value_agent)
  /\ _current_eps_threshold
       (snd (epsilon_random_exploration 0 (1 / 2) fresh_value_agent))
     <> Some (start (_exploration_spec fresh_value_agent)).
Proof.
  assert (H : epsilon_random_exploration 0 (1 / 2) fresh_value_agent
              = (Returned false, fresh_value_agent)).
  { apply epsilon_at_zero. simpl. lra. }
  split; [exact H |]. rewrite H. simpl. discriminate.
Qed.
Section sample_facts.
Context {Model ArchSpec Observation Action : Type}.
Context `{!ValueAgentImpl Model ArchSpec Observation Action}.
Implicit Types self : ValueAgent Model ArchSpec.

#[local] Open Scope R_scope.

Lemma sample_bind self (state : list Observation) (disallow : bool) (u : R)
    (draws : nat -> nat) :
  sample state disallow u draws self
  = match epsilon_random_exploration (_step_i (agent self) + 1) u (stepped self) with
    | (Returned s, self2) =>
        if (s && (_initial_observation_period self2 <? _step_i (agent self2))%Z)
           || disallow
        then (Returned (FromModel (_sample_model self2 state)), self2)
        else match _sample_random_process state draws self2 with
             | (Returned a, s) => (Returned (FromRandomProcess a), s)
             | (Raised e, s) => (Raised e, s)
             end
    | (Raised e, self2) => (Raised e, self2)
    end.
Proof.
  unfold sample, bind at 1, modify. fold (stepped self).
  unfold bind at 1, get at 1. unfold bind at 1.
  change (_step_i (agent (stepped self))) with (_step_i (agent self) + 1)%Z.
  destruct (epsilon_random_exploration _ u (stepped self)) as [[s|e] self2];
    [| reflexivity].
  unfold bind at 1, get at 1.
  destruct (_ || _); [reflexivity |].
  unfold bind, ret. destruct (_sample_random_process _ _ _) as [[a|e] s']; reflexivity.
Qed.

Lemma epsilon_cases self (t : Z) (u : R) :
  epsilon_random_exploration t u self = (Raised AssertionError, self)
  \/ epsilon_random_exploration t u self = (Raised ZeroDivisionError, self)
  \/ epsilon_random_exploration t u self = (Returned false, self)
  \/ exists s, epsilon_random_exploration t u self
               = (Returned s, set_current_eps_threshold
                                (Some (eps_threshold self t)) self).
Proof.
  unfold epsilon_random_exploration, bind, get, py_assert.
  destruct (bool_decide (0 <= end_ (_exploration_spec self))
            && bool_decide (end_ (_exploration_spec self)
                            <= start (_exploration_spec self))); simpl; [| tauto].
  destruct (t =? 0)%Z; simpl; [tauto |].
  destruct (bool_decide (decay (_exploration_spec self)
                         + _divide_by_zero_safety (agent self) = 0)); simpl; [tauto |].
  right; right; right. eexists. reflexivity.
Qed.

(** What a call of [sample] can do, whatever the agent and the draws: the step
    counter is incremented, the threshold attribute is assigned or left alone,
    and the call raises in the schedule, returns the model's action, or, only
    when random sampling is allowed, hands over to the random process. *)
Lemma sample_cases self (state : list Observation) (disallow : bool) (u : R)
    (draws : nat -> nat) :
  exists thr : option R,
    (thr = _current_eps_threshold self
     \/ thr = Some (eps_threshold self (_step_i (agent self) + 1)))
    /\ let self' := set_current_eps_threshold thr (stepped self) in
       snd (sample state disallow u draws self) = self'
       /\ (fst (sample state disallow u draws self) = Raised AssertionError
           \/ fst (sample state disallow u draws self) = Raised ZeroDivisionError
           \/ fst (sample state disallow u draws self)
              = Returned (FromModel (_sample_model self' state))
           \/ (disallow = false
               /\ fst (sample state disallow u draws self)
                  = match fst (_sample_random_process state draws self') with
                    | Returned a => Returned (FromRandomProcess a)
                    | Raised e => Raised e
                    end)).
Proof.
  assert (Hsame : set_current_eps_threshold (_current_eps_threshold self) (stepped self)
                  = stepped self) by (by destruct self).
  assert (Hbranch : forall (s : bool) self2,
    let r := if (s && (_initial_observation_period self2 <? _step_i (agent self2))%Z)
                || disallow
             then (Returned (FromModel (_sample_model self2 state)), self2)
             else match _sample_random_process state draws self2 with
                  | (Returned a, s) => (Returned (FromRandomProcess a), s)
                  | (Raised e, s) => (Raised e, s)
                  end in
    snd r = self2
    /\ (fst r = Returned (FromModel (_sample_model self2 state))
        \/ (disallow = false
            /\ fst r = match fst (_sample_random_process state draws self2) with
                       | Returned a => Returned (FromRandomProcess a)
                       | Raised e => Raised e
                       end))).
  { intros s self2. simpl.
    destruct ((s && _) || disallow) eqn:Hc; simpl; [tauto |].
    apply orb_false_elim in Hc as [_ ->].
    pose proof (random_process_state self2 state draws) as Hst.
    destruct (_sample_random_process state draws self2) as [[a|e] s'];
      simpl in *; subst s'; tauto. }
  rewrite sample_bind.
  destruct (epsilon_cases (stepped self) (_step_i (agent self) + 1) u)
    as [-> | [-> | [-> | [s ->]]]].
  - exists (_current_eps_threshold self). rewrite Hsame. simpl. tauto.
  - exists (_current_eps_threshold self). rewrite Hsame. simpl. tauto.
  - exists (_current_eps_threshold self). rewrite Hsame.
    split; [tauto |]. destruct (Hbranch false (stepped self)) as [Hs Hf].
    simpl. split; [exact Hs | tauto].
  - exists (Some (eps_threshold self (_step_i (agent self) + 1))).
    split; [tauto |].
    destruct (Hbranch s (set_current_eps_threshold
                           (Some (eps_threshold self (_step_i (agent self) + 1)))
                           (stepped self))) as [Hs Hf].
    simpl. split; [exact Hs | tauto].
Qed.

(** C7: with [disallow_random_sample=True], [sample] never returns an action
    of the random process, whatever the state and the draws; on an agent whose
    schedule is well defined it returns the model's action. *)
Theorem sample_disallowed_returns_model_action self (state : list Observation)
    (u : R) (draws : nat -> nat) :
  (forall a, fst (sample state true u draws self) <> Returned (FromRandomProcess a))
  /\ (schedule_ok self ->
      sample state true u draws self
      = (Returned (FromModel (_sample_model (scheduled self) state)), scheduled self)).
Proof.
  split.
  - intros a.
    destruct (sample_cases self state true u draws)
      as (thr & _ & _ & [H | [H | [H | [H _]]]]); try (rewrite H; discriminate).
  - intros Hok. rewrite sample_run by done. by rewrite orb_true_r.
Qed.

(** C8 (amended): a call of [sample] increments the agent's step counter
    [_step_i] by one and either leaves [_current_eps_threshold] alone or
    assigns it the threshold of the new step count; every other attribute of
    the agent keeps its value. *)
Theorem sample_frame self (state : list Observation) (disallow : bool) (u : R)
    (draws : nat -> nat) :
  let self' := snd (sample state disallow u draws self) in
  _step_i (agent self') = (_step_i (agent self) + 1)%Z
  /\ (_current_eps_threshold self' = _current_eps_threshold self
      \/ _current_eps_threshold self'
         = Some (eps_threshold self (_step_i (agent self) + 1)))
  /\ _input_shape (agent self') = _input_shape (agent self)
  /\ _output_shape (agent self') = _output_shape (agent self)
  /\ _rollout_i (agent self') = _rollout_i (agent self)
  /\ _end_training (agent self') = _end_training (agent self)
  /\ _divide_by_zero_safety (agent self') = _divide_by_zero_safety (agent self)
  /\ _environment (agent self') = _environment (agent self)
  /\ _exploration_spec self' = _exploration_spec self
  /\ _initial_observation_period self' = _initial_observation_period self
  /\ _value_arch_spec self' = _value_arch_spec self
  /\ _value_model self' = _value_model self
  /\ _naive_max_policy self' = _naive_max_policy self.
Proof.
  intros self'. subst self'.
  destruct (sample_cases self state disallow u draws) as (thr & Hthr & -> & _).
  simpl. repeat split; try reflexivity.
  destruct Hthr as [-> | ->]; tauto.
Qed.

Lemma exploits_sample self (state : list Observation) (u : R) (draws : nat -> nat) :
  schedule_ok self ->
  (0 <= _step_i (agent self))%Z ->
  (_initial_observation_period self <= _step_i (agent self))%Z ->
  exploits (sample state false u draws self)
  = bool_decide (u > eps_threshold self (_step_i (agent self) + 1)).
Proof.
  intros Hok Hstep Hiop. rewrite sample_run by done.
  destruct (Z.eqb_spec (_step_i (agent self) + 1) 0) as [Ht|Ht]; [lia |].
  replace (_initial_observation_period self <? _step_i (agent self) + 1)%Z
    with true by (symmetry; apply Z.ltb_lt; lia).
  rewrite andb_true_r, orb_false_r.
  destruct (bool_decide _); [reflexivity |].
  destruct (_sample_random_process _ _ _) as [[a|e] s]; reflexivity.
Qed.

(** C1 (amended): at a step count [t = _step_i + 1 >= 1] past the initial
    observation period, the schedule returns [True] exactly when the uniform
    sample exceeds [epsilon(t)], and [sample] (random sampling allowed)
    answers [True] with the greedy model action and [False] with the random
    process. So the random-exploration branch is taken exactly when
    [sample <= epsilon(t)]: for [start <= 1] its probability is [epsilon(t)],
    and that of the greedy branch is [1 - epsilon(t)]. *)
Theorem sample_explores_with_probability_epsilon self (state : list Observation)
    (draws : nat -> nat) :
  schedule_ok self ->
  (0 <= _step_i (agent self))%Z ->
  (_initial_observation_period self <= _step_i (agent self))%Z ->
  let t := (_step_i (agent self) + 1)%Z in
  (forall u : R,
     fst (epsilon_random_exploration t u (stepped self))
     = Returned (bool_decide (u > eps_threshold self t)))
  /\ (forall u : R, u > eps_threshold self t ->
        sample state false u draws self
        = (Returned (FromModel (_sample_model (scheduled self) state)),
           scheduled self))
  /\ (forall u : R, u <= eps_threshold self t ->
        sample state false u draws self
        = match _sample_random_process state draws (scheduled self) with
          | (Returned a, s) => (Returned (FromRandomProcess a), s)
          | (Raised e, s) => (Raised e, s)
          end)
  /\ (start (_exploration_spec self) <= 1 ->
      probability (fun u => negb (exploits (sample state false u draws self)))
                  (eps_threshold self t)
      /\ probability (fun u => exploits (sample state false u draws self))
                     (1 - eps_threshold self t)).
Proof.
  intros Hok Hstep Hiop t.
  assert (Ht : t <> 0%Z) by (subst t; lia).
  assert (Hiop' : (_initial_observation_period self <? t)%Z = true)
    by (apply Z.ltb_lt; subst t; lia).
  repeat split.
  - intros u. by rewrite epsilon_at_nonzero.
  - intros u Hu. rewrite sample_run by done. fold t.
    apply Z.eqb_neq in Ht. rewrite Ht, Hiop'.
    by rewrite bool_decide_eq_true_2.
  - intros u Hu. rewrite sample_run by done. fold t.
    apply Z.eqb_neq in Ht. rewrite Ht, Hiop'.
    by rewrite bool_decide_eq_false_2 by lra.
  - destruct (eps_threshold_bounds self t Hok ltac:(lia)) as [Hlo Hhi].
    destruct Hok as [[H0 H1] Hd].
    apply (probability_above
             (fun u => exploits (sample state false u draws self))).
    + lra.
    + intros u _. by apply exploits_sample.
  - destruct (eps_threshold_bounds self t Hok ltac:(lia)) as [Hlo Hhi].
    destruct Hok as [[H0 H1] Hd].
    apply (probability_above
             (fun u => exploits (sample state false u draws self))).
    + lra.
    + intros u _. by apply exploits_sample.
Qed.

End sample_facts.

Lemma sample_disallowed_returns_model_action_witness :
  schedule_ok fresh_value_agent
  /\ @sample _ _ _ _ zero_model [tt] true (1 / 2) (fun _ => 0%nat) fresh_value_agent
     = (Returned (FromModel 0), scheduled fresh_value_agent).
Proof.
  split; [exact fresh_value_agent_schedule_ok |].
  exact (proj2 (@sample_disallowed_returns_model_action _ _ _ _ zero_model
                  fresh_value_agent [tt] (1 / 2)%R (fun _ => 0%nat))
               fresh_value_agent_schedule_ok).
Defined.

Lemma sample_explores_with_probability_epsilon_witness :
  schedule_ok fresh_value_agent
  /\ (start (_exploration_spec fresh_value_agent) <= 1)%R
  /\ probability
       (fun u => negb (exploits (@sample _ _ _ _ zero_model [tt] false u
                                   (fun _ => 0%nat) fresh_value_agent)))
       (eps_threshold fresh_value_agent 1).
Proof.
  assert (Hstart : (start (_exploration_spec fresh_value_agent) <= 1)%R)
    by (simpl; lra).
  split; [exact fresh_value_agent_schedule_ok | split; [exact Hstart |]].
  refine (proj1 (proj2 (proj2 (proj2
            (@sample_explores_with_probability_epsilon _ _ _ _ zero_model
               fresh_value_agent [tt] (fun _ => 0%nat)
               fresh_value_agent_schedule_ok _ _))) Hstart)); simpl; lia.
Defined.

(** C1, as stated, fails: on a fresh agent (schedule [(0.99, 0.04, 10000)]) at
    step count [1] the uniform sample [0.995] exceeds [epsilon(1)], and
    [sample] returns the greedy model action, not a random one. *)
Lemma sample_above_threshold_is_greedy :
  (995 / 1000 > eps_threshold fresh_value_agent 1)%R
  /\ @sample _ _ _ _ zero_model [tt] false (995 / 1000) (fun _ => 0%nat)
       fresh_value_agent
     = (Returned (FromModel 0), scheduled fresh_value_agent)
  /\ exploits (@sample _ _ _ _ zero_model [tt] false (995 / 1000) (fun _ => 0%nat)
                 fresh_value_agent) = true.
Proof.
  assert (Hgt : (995 / 1000 > eps_threshold fresh_value_agent 1)%R).
  { pose proof (eps_threshold_bounds fresh_value_agent 1
                  fresh_value_agent_schedule_ok ltac:(lia)) as [_ Hhi].
    simpl in Hhi. lra. }
  assert (Hrun : @sample _ _ _ _ zero_model [tt] false (995 / 1000) (fun _ => 0%nat)
                   fresh_value_agent
                 = (Returned (FromModel 0), scheduled fresh_value_agent)).
  { rewrite (@sample_run _ _ _ _ zero_model) by exact fresh_value_agent_schedule_ok.
    change (_step_i (agent fresh_value_agent) + 1) with 1.
    change (1 =? 0) with false.
    rewrite bool_decide_eq_true_2 by exact Hgt. reflexivity. }
  split; [exact Hgt | split; [exact Hrun |]]. by rewrite Hrun.
Qed.

(** C8, as stated, fails: a call of [sample] on a fresh agent changes the
    agent's step counter, an attribute of [Agent] itself, from [0] to [1]. *)
Lemma sample_changes_step_counter :
  _step_i (agent fresh_value_agent) = 0
  /\ _step_i (agent (snd (@sample _ _ _ _ zero_model [tt] false (1 / 2)
                            (fun _ => 0%nat) fresh_value_agent))) = 1.
Proof.
  split; [reflexivity |].
  destruct (@sample_cases _ _ _ _ zero_model fresh_value_agent [tt] false
              (1 / 2)%R (fun _ => 0%nat)) as (thr & _ & -> & _).
  reflexivity.
Qed.

(** ** The replay memory *)

Section replay_memory_facts.
Context {T : Type}.
Implicit Types (m : ReplayMemory.t T) (x : T) (xs hist : list T).

#[local] Open Scope nat_scope.

(** Overwriting the entry under the cursor and advancing the cursor drops the
    oldest entry and appends the new one. *)
Lemma overwrite_at_cursor (mem : list T) (p : nat) x :
  p < length mem ->
  drop ((p + 1) mod length mem) (<[p:=x]> mem)
  ++ take ((p + 1) mod length mem) (<[p:=x]> mem)
  = drop 1 (drop p mem ++ take p mem) ++ [x].
Proof.
  intros Hp.
  destruct (lookup_lt_is_Some_2 mem p Hp) as [y Hy].
  apply list_elem_of_split_length in Hy as (A & B & -> & ->).
  rewrite length_app. simpl.
  rewrite insert_app_r_alt, Nat.sub_diag by lia. simpl.
  rewrite drop_app_length, take_app_length. simpl.
  destruct B as [|b B].
  - simpl. rewrite Nat.Div0.mod_same. simpl. by rewrite !app_nil_r.
  - rewrite Nat.mod_small by (simpl; lia).
    replace (length A + 1) with (length (A ++ [x]))
      by (rewrite length_app; simpl; lia).
    replace (A ++ x :: b :: B) with ((A ++ [x]) ++ b :: B)
      by (by rewrite <- app_assoc).
    rewrite drop_app_length, take_app_length. simpl.
    by rewrite <- app_assoc.
Qed.

Lemma tracks_new (c : nat) : tracks c [] (@ReplayMemory.new T c).
Proof.
  unfold tracks, ReplayMemory.from_cursor. simpl.
  split; [done | split; [done | split; [| by right]]].
  destruct (decide (c = 0)); [done |]. by rewrite Nat.Div0.mod_0_l.
Qed.

Lemma tracks_add (c : nat) hist m x :
  tracks c hist m -> tracks c (hist ++ [x]) (ReplayMemory.add x m).
Proof.
  intros (Hc & Hlen & Hpos & Hcur).
  destruct (decide (c = 0)) as [-> | Hc0].
  { (* a memory of capacity 0 stays empty *)
    assert (Hnil : ReplayMemory.memory m = []).
    { apply nil_length_inv. rewrite Hlen. lia. }
    unfold tracks, ReplayMemory.add. rewrite Hc, Hnil. simpl.
    rewrite length_app. simpl.
    split; [done | split; [lia | split; [| by left]]].
    rewrite Hpos. simpl. lia. }
  destruct Hcur as [? | Hcur]; [done |].
  unfold ReplayMemory.from_cursor in Hcur.
  unfold tracks, ReplayMemory.add, ReplayMemory.from_cursor. simpl.
  rewrite Hc, Hpos, length_app. simpl.
  destruct (decide (c = 0)) as [? | _]; [done |].
  assert (Hpos' : (length hist mod c + 1) mod c = (length hist + 1) mod c)
    by (by rewrite Nat.Div0.add_mod_idemp_l).
  destruct (Nat.ltb_spec (length (ReplayMemory.memory m)) c) as [Hroom | Hfull].
  - (* below capacity: the memory is the history, and the entry is appended *)
    assert (Hsmall : length hist < c) by lia.
    rewrite Hpos, Nat.mod_small in Hcur by lia.
    replace (length hist - c) with 0 in Hcur by lia. simpl in Hcur.
    assert (Hmem : ReplayMemory.memory m = hist).
    { rewrite drop_ge, take_ge in Hcur by lia. done. }
    rewrite Hmem, length_app. simpl.
    split; [done | split; [lia | split; [done | right]]].
    replace (length hist + 1 - c) with 0 by lia. simpl.
    rewrite Hpos'.
    destruct (decide (length hist + 1 = c)) as [Heq | Hne].
    + rewrite Heq, Nat.Div0.mod_same. simpl. by rewrite app_nil_r.
    + rewrite Nat.mod_small by lia.
      rewrite drop_ge, take_ge by (rewrite length_app; simpl; lia). done.
  - (* at capacity: the oldest entry is overwritten *)
    assert (Hlenc : length (ReplayMemory.memory m) = c) by lia.
    rewrite length_insert.
    split; [done | split; [lia | split; [done | right]]].
    assert (Hp : length hist mod c < length (ReplayMemory.memory m)).
    { rewrite Hlenc. apply Nat.mod_upper_bound. done. }
    pose proof (overwrite_at_cursor (ReplayMemory.memory m) _ x Hp) as Hstep.
    rewrite Hlenc in Hstep. rewrite Hstep. rewrite Hpos in Hcur. rewrite Hcur.
    rewrite drop_drop.
    replace (length hist - c + 1) with (length hist + 1 - c) by lia.
    rewrite drop_app_le by lia. done.
Qed.

Lemma tracks_add_all (c : nat) xs :
  tracks c xs (ReplayMemory.add_all xs (ReplayMemory.new c)).
Proof.
  induction xs as [|x xs IH] using rev_ind.
  - apply tracks_new.
  - unfold ReplayMemory.add_all. rewrite foldl_snoc. by apply tracks_add.
Qed.

End replay_memory_facts.

Section replay_memory_claims.
Context {T : Type}.
Implicit Types (m : ReplayMemory.t T) (x : T) (xs : list T).

#[local] Open Scope nat_scope.

Lemma from_cursor_permutation m :
  ReplayMemory.from_cursor m ≡ₚ ReplayMemory.memory m.
Proof.
  unfold ReplayMemory.from_cursor.
  rewrite Permutation_app_comm. by rewrite take_drop.
Qed.

(** C3: after any sequence [xs] of [add] calls on a memory of capacity [c] the
    stored length is at most [c]; when more than [c] transitions were added,
    [size()] is [c] and the stored entries, read from the write cursor, are
    the last [c] insertions in insertion order, so the stored entries are
    exactly those, each as often as it was inserted. *)
Theorem replay_memory_retains_most_recent (c : nat) xs :
  let m := ReplayMemory.add_all xs (ReplayMemory.new c) in
  ReplayMemory.size m <= c
  /\ ReplayMemory.size m = length xs `min` c
  /\ (c < length xs ->
      ReplayMemory.size m = c
      /\ ReplayMemory.from_cursor m = drop (length xs - c) xs
      /\ ReplayMemory.memory m ≡ₚ drop (length xs - c) xs
      /\ (forall x, x ∈ ReplayMemory.memory m <-> x ∈ drop (length xs - c) xs)).
Proof.
  intros m. destruct (tracks_add_all c xs) as (Hc & Hlen & Hpos & Hcur).
  fold m in Hc, Hlen, Hpos, Hcur. unfold ReplayMemory.size.
  split; [lia | split; [done |]]. intros Hmore.
  assert (Hfrom : ReplayMemory.from_cursor m = drop (length xs - c) xs).
  { destruct Hcur as [-> | Hcur]; [| done].
    unfold ReplayMemory.from_cursor.
    assert (Hnil : ReplayMemory.memory m = []).
    { apply nil_length_inv. rewrite Hlen. lia. }
    rewrite Hnil, Nat.sub_0_r, drop_all. by rewrite drop_nil, take_nil. }
  assert (Hperm : ReplayMemory.memory m ≡ₚ drop (length xs - c) xs).
  { rewrite <- Hfrom. symmetry. apply from_cursor_permutation. }
  split; [lia | split; [done | split; [done |]]].
  intros x. by rewrite Hperm.
Qed.

(** C4: [sample(batch_size)] fails with [InsufficientDataError] exactly when
    fewer than [batch_size] entries are stored; otherwise it returns a batch
    of [batch_size] entries, each of which is a stored transition. *)
Theorem replay_memory_sample_insufficient_iff (batch_size : nat)
    (draws : nat -> nat) m :
  (ReplayMemory.sample batch_size draws m = Raised InsufficientDataError
   <-> ReplayMemory.size m < batch_size)
  /\ (batch_size <= ReplayMemory.size m ->
      exists batch,
        ReplayMemory.sample batch_size draws m = Returned batch
        /\ length batch = batch_size
        /\ forall x, x ∈ batch -> x ∈ ReplayMemory.memory m).
Proof.
  unfold ReplayMemory.sample, ReplayMemory.size.
  destruct (Nat.ltb_spec (length (ReplayMemory.memory m)) batch_size) as [Hlt | Hge].
  - split; [split; [done | done] | lia].
  - split; [split; [discriminate | lia] |]. intros _.
    eexists. split; [reflexivity | split].
    + destruct (decide (batch_size = 0)) as [-> | Hpos]; [reflexivity |].
      assert (Hne : length (ReplayMemory.memory m) <> 0) by lia.
      transitivity (length (seq 0 batch_size)); [| apply length_seq].
      generalize (seq 0 batch_size). intros l.
      induction l as [|i l IH]; [reflexivity |]. simpl.
      destruct (lookup_lt_is_Some_2 (ReplayMemory.memory m)
                  (draws i mod length (ReplayMemory.memory m))) as [y Hy].
      { by apply Nat.mod_upper_bound. }
      rewrite Hy. simpl. f_equal. exact IH.
    + intros x Hx. apply list_elem_of_omap in Hx as (i & _ & Hi).
      by apply list_elem_of_lookup_2 in Hi.
Qed.

End replay_memory_claims.

Lemma replay_memory_retains_most_recent_witness :
  (3 < length [transition_A; transition_B; transition_C; transition_D])%nat
  /\ ReplayMemory.memory
       (ReplayMemory.add_all [transition_A; transition_B; transition_C; transition_D]
          (ReplayMemory.new 3))
     = [transition_D; transition_B; transition_C]
  /\ ReplayMemory.memory
       (ReplayMemory.add_all [transition_A; transition_B; transition_C; transition_D]
          (ReplayMemory.new 3))
     ≡ₚ [transition_B; transition_C; transition_D].
Proof.
  assert (Hmore : (3 < length [transition_A; transition_B; transition_C;
                               transition_D])%nat) by (simpl; lia).
  split; [exact Hmore | split; [reflexivity |]].
  exact (proj1 (proj2 (proj2
           (proj2 (proj2 (replay_memory_retains_most_recent 3
                            [transition_A; transition_B; transition_C; transition_D]))
              Hmore)))).
Defined.

Lemma replay_memory_sample_insufficient_iff_witness :
  (2 <= ReplayMemory.size
          (ReplayMemory.add_all [transition_A; transition_B; transition_C]
             (ReplayMemory.new 3)))%nat
  /\ ReplayMemory.sample 2 (fun i => (5 * i + 1)%nat)
       (ReplayMemory.add_all [transition_A; transition_B; transition_C]
          (ReplayMemory.new 3))
     = Returned [transition_B; transition_A]
  /\ exists batch,
       ReplayMemory.sample 2 (fun i => (5 * i + 1)%nat)
         (ReplayMemory.add_all [transition_A; transition_B; transition_C]
            (ReplayMemory.new 3))
       = Returned batch
       /\ length batch = 2%nat
       /\ forall x, x ∈ batch ->
            x ∈ ReplayMemory.memory
                  (ReplayMemory.add_all [transition_A; transition_B; transition_C]
                     (ReplayMemory.new 3)).
Proof.
  assert (Hsize : (2 <= ReplayMemory.size
                          (ReplayMemory.add_all
                             [transition_A; transition_B; transition_C]
                             (ReplayMemory.new 3)))%nat) by (vm_compute; lia).
  split; [exact Hsize | split; [reflexivity |]].
  exact (proj2 (replay_memory_sample_insufficient_iff 2 (fun i => (5 * i + 1)%nat)
                  (ReplayMemory.add_all [transition_A; transition_B; transition_C]
                     (ReplayMemory.new 3))) Hsize).
Defined.

(** ** The regression target of a value update *)

Section value_update_facts.
Context {Observation Action : Type}.
Implicit Types (tr : Transition Observation Action)
  (batch : list (Transition Observation Action)).

#[local] Open Scope R_scope.

Lemma regression_target_terminal (gamma target_value : R) tr :
  terminal tr = true ->
  ValueUpdate.regression_target gamma target_value tr = reward tr.
Proof. intros Hterm. unfold ValueUpdate.regression_target. rewrite Hterm. ring. Qed.

Lemma batch_targets_lookup (gamma : R) (target_model : Observation -> R) batch
    (i : nat) tr :
  batch !! i = Some tr ->
  ValueUpdate.batch_targets gamma target_model batch !! i
  = Some (ValueUpdate.regression_target gamma (target_model (next_state tr)) tr).
Proof.
  revert i. induction batch as [|tr' batch IH]; intros [|i] Hi; simplify_eq/=.
  - reflexivity.
  - by apply IH.
Qed.

(** C5: for a sampled transition with [terminal = True] the bootstrap term
    [gamma * (1 - terminal) * target_value] is zero and the regression target
    is the transition's reward, whatever the target model answers. *)
Theorem terminal_target_is_reward (gamma : R) (target_model : Observation -> R)
    batch (i : nat) tr :
  batch !! i = Some tr ->
  terminal tr = true ->
  (forall target_value : R,
     gamma * (1 - (if terminal tr then 1 else 0)) * target_value = 0)
  /\ (forall target_value : R,
        ValueUpdate.regression_target gamma target_value tr = reward tr)
  /\ ValueUpdate.batch_targets gamma target_model batch !! i = Some (reward tr)
  /\ (forall target_model' : Observation -> R,
        ValueUpdate.batch_targets gamma target_model' batch !! i
        = ValueUpdate.batch_targets gamma target_model batch !! i).
Proof.
  intros Hi Hterm. split; [| split; [| split]].
  - intros target_value. rewrite Hterm. ring.
  - intros target_value. by apply regression_target_terminal.
  - rewrite (batch_targets_lookup _ _ _ _ _ Hi).
    by rewrite regression_target_terminal.
  - intros target_model'. rewrite !(batch_targets_lookup _ _ _ _ _ Hi).
    by rewrite !regression_target_terminal.
Qed.

End value_update_facts.

Lemma terminal_target_is_reward_witness :
  [transition_C; transition_D] !! 1%nat = Some transition_D
  /\ terminal transition_D = true
  /\ ValueUpdate.batch_targets (99 / 100) (fun s => IZR (5 + s))
       [transition_C; transition_D] !! 1%nat
     = Some 1%R.
Proof.
  split; [reflexivity | split; [reflexivity |]].
  exact (proj1 (proj2 (proj2
           (terminal_target_is_reward (99 / 100)%R (fun s => IZR (5 + s))
              [transition_C; transition_D] 1%nat transition_D eq_refl eq_refl)))).
Defined.

(** ** Rollout loops *)

Section for_count_facts.
Context {S : Type} (body : Z -> S -> S * bool).

Lemma breaks_at_0 (t : Z) (s : S) : breaks_at body 0 t s = snd (body t s).
Proof. unfold breaks_at. simpl. by rewrite Z.add_0_r. Qed.

Lemma breaks_at_S (n : nat) (t : Z) (s : S) :
  breaks_at body (Datatypes.S n) t s = breaks_at body n (t + 1) (fst (body t s)).
Proof.
  unfold breaks_at. simpl. f_equal. f_equal. lia.
Qed.

Lemma iterations_S (n : nat) (t : Z) (s : S) :
  iterations body (Datatypes.S n) t s
  = fst (body (t + Z.of_nat n) (iterations body n t s)).
Proof.
  revert t s. induction n as [|n IH]; intros t s.
  - simpl. by rewrite Z.add_0_r.
  - change (iterations body (Datatypes.S (Datatypes.S n)) t s)
      with (iterations body (Datatypes.S n) (t + 1) (fst (body t s))).
    rewrite IH. simpl. do 2 f_equal. lia.
Qed.

(** While no iteration reaches [break], the loop is still running. *)
Lemma for_count_running (fuel : nat) (t : Z) (s : S) :
  (forall k, (k < fuel)%nat -> breaks_at body k t s = false) ->
  for_count body fuel t s = None.
Proof.
  revert t s. induction fuel as [|fuel IH]; intros t s Hno; simpl; [done |].
  pose proof (Hno 0%nat ltac:(lia)) as H0. rewrite breaks_at_0 in H0.
  destruct (body t s) as [s' stop] eqn:Hbody. simpl in H0. subst stop.
  apply IH. intros k Hk.
  specialize (Hno (Datatypes.S k) ltac:(lia)).
  by rewrite breaks_at_S, Hbody in Hno.
Qed.

(** The loop is left in the first iteration that reaches [break]. *)
Lemma for_count_exits (n fuel : nat) (t : Z) (s : S) :
  breaks_at body n t s = true ->
  (forall k, (k < n)%nat -> breaks_at body k t s = false) ->
  (n < fuel)%nat ->
  for_count body fuel t s
  = Some (t + Z.of_nat n, iterations body (Datatypes.S n) t s).
Proof.
  revert fuel t s. induction n as [|n IH]; intros fuel t s Hyes Hno Hfuel.
  - destruct fuel as [|fuel]; [lia |]. simpl.
    rewrite breaks_at_0 in Hyes.
    destruct (body t s) as [s' stop]. simpl in *. subst stop.
    by rewrite Z.add_0_r.
  - destruct fuel as [|fuel]; [lia |]. simpl.
    pose proof (Hno 0%nat ltac:(lia)) as H0. rewrite breaks_at_0 in H0.
    rewrite breaks_at_S in Hyes.
    destruct (body t s) as [s' stop] eqn:Hbody. simpl in *. subst stop.
    rewrite (IH fuel (t + 1) s').
    + do 2 f_equal. lia.
    + exact Hyes.
    + intros k Hk. specialize (Hno (Datatypes.S k) ltac:(lia)).
      by rewrite breaks_at_S, Hbody in Hno.
    + lia.
Qed.

(** If the loop has been left, some iteration reached [break]. *)
Lemma for_count_exited (fuel : nat) (t t' : Z) (s s' : S) :
  for_count body fuel t s = Some (t', s') ->
  exists n, (n < fuel)%nat /\ t' = t + Z.of_nat n
            /\ breaks_at body n t s = true
            /\ (forall k, (k < n)%nat -> breaks_at body k t s = false).
Proof.
  revert t s. induction fuel as [|fuel IH]; intros t s Hrun; simpl in Hrun; [done |].
  destruct (body t s) as [s1 stop] eqn:Hbody. destruct stop.
  - exists 0%nat. simplify_eq. rewrite breaks_at_0, Hbody. simpl.
    repeat split; [lia | lia | lia].
  - destruct (IH _ _ Hrun) as (n & Hn & -> & Hyes & Hno).
    exists (Datatypes.S n). rewrite breaks_at_S, Hbody. simpl.
    repeat split; [lia | lia | done |].
    intros [|k] Hk.
    + by rewrite breaks_at_0, Hbody.
    + rewrite breaks_at_S, Hbody. apply Hno. lia.
Qed.

End for_count_facts.

Section actor_critic_rollout_facts.
Context {Observation Action Internals EnvState : Type}.
Context `{!ActorCriticAgent.Impl Observation Action Internals EnvState}.
Implicit Types l : ActorCriticAgent.loop_state Observation Internals EnvState.

(** The loop of [ActorCriticAgent.rollout] reaches [break] exactly when
    [terminated.all()] holds of the environment's answer, and then records the
    counter as the episode length. *)
Lemma actor_critic_body_break (train : bool) (t : Z) l :
  snd (ActorCriticAgent.rollout_body train t l)
  = forallb (fun b => b)
      (ActorCriticAgent.terminated (ActorCriticAgent.answer train l))
  /\ (snd (ActorCriticAgent.rollout_body train t l) = true ->
      ActorCriticAgent.episode_length (fst (ActorCriticAgent.rollout_body train t l))
      = t).
Proof.
  unfold ActorCriticAgent.rollout_body, ActorCriticAgent.answer.
  destruct (ActorCriticAgent.sample _ _ _) as [action self1]. simpl.
  destruct (ActorCriticAgent.react _ _) as [snapshot environment1]. simpl.
  destruct (forallb _ _); simpl; split; done.
Qed.

Lemma actor_critic_breaks_at (train : bool) (n : nat) (t : Z) l :
  breaks_at (ActorCriticAgent.rollout_body train) n t l
  = forallb (fun b => b)
      (ActorCriticAgent.terminated
         (ActorCriticAgent.answer train
            (iterations (ActorCriticAgent.rollout_body train) n t l))).
Proof. unfold breaks_at. apply actor_critic_body_break. Qed.

Lemma actor_critic_rollout_running (fuel : nat) (train : bool)
    initial_state environment self :
  (forall k, (k < fuel)%nat ->
     breaks_at (ActorCriticAgent.rollout_body train) k 1
       (ActorCriticAgent.enter initial_state environment self) = false) ->
  ActorCriticAgent.rollout fuel initial_state environment train self = None.
Proof.
  intros Hno. unfold ActorCriticAgent.rollout.
  fold (ActorCriticAgent.enter initial_state environment self).
  by rewrite for_count_running.
Qed.

Lemma actor_critic_rollout_exits (n fuel : nat) (train : bool)
    initial_state environment self :
  breaks_at (ActorCriticAgent.rollout_body train) n 1
    (ActorCriticAgent.enter initial_state environment self) = true ->
  (forall k, (k < n)%nat ->
     breaks_at (ActorCriticAgent.rollout_body train) k 1
       (ActorCriticAgent.enter initial_state environment self) = false) ->
  (n < fuel)%nat ->
  exists es self' environment',
    ActorCriticAgent.rollout fuel initial_state environment train self
    = Some (es, 1 + Z.of_nat n, self', environment').
Proof.
  intros Hyes Hno Hfuel. unfold ActorCriticAgent.rollout.
  fold (ActorCriticAgent.enter initial_state environment self).
  rewrite (for_count_exits _ n) by done.
  rewrite iterations_S.
  unfold breaks_at in Hyes.
  destruct (actor_critic_body_break train (1 + Z.of_nat n)
              (iterations (ActorCriticAgent.rollout_body train) n 1
                 (ActorCriticAgent.enter initial_state environment self)))
    as [_ Hlen].
  rewrite (Hlen Hyes). eauto.
Qed.

End actor_critic_rollout_facts.

Section evo_rollout_facts.
Context {Observation Internals EnvState : Type}.
Context `{!EVOAgent.Impl Observation Internals EnvState}.
Implicit Types l : EVOAgent.loop_state Observation Internals EnvState.

(** The loop of [EVOAgent.rollout] reaches [break] exactly when the
    environment answers [terminated], and then records the counter as the
    episode length. *)
Lemma evo_body_break (t : Z) l :
  snd (EVOAgent.rollout_body t l) = EVOAgent.answer l
  /\ (snd (EVOAgent.rollout_body t l) = true ->
      EVOAgent.loop_episode_length (fst (EVOAgent.rollout_body t l)) = t).
Proof.
  unfold EVOAgent.rollout_body, EVOAgent.answer.
  destruct (EVOAgent.sample_action _ _) as [action self1]. simpl.
  destruct (EVOAgent.step _ _) as [[[state signal] terminated] environment1]. simpl.
  destruct terminated; simpl; split; done.
Qed.

Lemma evo_breaks_at (n : nat) (t : Z) l :
  breaks_at EVOAgent.rollout_body n t l
  = EVOAgent.answer (iterations EVOAgent.rollout_body n t l).
Proof. unfold breaks_at. apply evo_body_break. Qed.

Lemma evo_rollout_running (fuel : nat) (train : bool)
    initial_state environment self :
  (forall k, (k < fuel)%nat ->
     breaks_at EVOAgent.rollout_body k 1
       (EVOAgent.enter initial_state environment train self) = false) ->
  EVOAgent.rollout fuel initial_state environment train self = None.
Proof.
  intros Hno. unfold EVOAgent.rollout.
  fold (EVOAgent.enter initial_state environment train self).
  by rewrite for_count_running.
Qed.

Lemma evo_rollout_exits (n fuel : nat) (train : bool)
    initial_state environment self :
  breaks_at EVOAgent.rollout_body n 1
    (EVOAgent.enter initial_state environment train self) = true ->
  (forall k, (k < n)%nat ->
     breaks_at EVOAgent.rollout_body k 1
       (EVOAgent.enter initial_state environment train self) = false) ->
  (n < fuel)%nat ->
  exists es self' environment',
    EVOAgent.rollout fuel initial_state environment train self
    = Some (es, 1 + Z.of_nat n, self', environment').
Proof.
  intros Hyes Hno Hfuel. unfold EVOAgent.rollout.
  fold (EVOAgent.enter initial_state environment train self).
  rewrite (for_count_exits _ n) by done.
  rewrite iterations_S.
  unfold breaks_at in Hyes.
  destruct (evo_body_break (1 + Z.of_nat n)
              (iterations EVOAgent.rollout_body n 1
                 (EVOAgent.enter initial_state environment train self)))
    as [_ Hlen].
  rewrite (Hlen Hyes). eauto.
Qed.

End evo_rollout_facts.

Section rollout_claims.
Context {Observation Action Internals EnvState : Type}.
Context `{!ActorCriticAgent.Impl Observation Action Internals EnvState}.
Context {EvoObservation EvoInternals EvoEnvState : Type}.
Context `{!EVOAgent.Impl EvoObservation EvoInternals EvoEnvState}.

(** C6 (amended): the loop of a rollout has a single exit, the [break] taken
    in the first iteration in which the environment reports [terminated] (for
    all tracked sub-environments, in [ActorCriticAgent.rollout]); the rollout
    then returns with that iteration's counter as episode length. There is no
    per-episode step cap: however many iterations have passed without such a
    report, the loop is still running. *)
Theorem rollout_exits_only_on_terminal
    (train : bool)
    (initial_state : ActorCriticAgent.EnvironmentSnapshot Observation)
    (environment : EnvState) (self : ActorCriticAgent.t Internals)
    (evo_train : bool) (evo_initial_state : EvoObservation)
    (evo_environment : EvoEnvState) (evo_self : EVOAgent.t EvoInternals) :
  let all_terminated := fun n : nat =>
    forallb (fun b => b)
      (ActorCriticAgent.terminated
         (ActorCriticAgent.answer train
            (iterations (ActorCriticAgent.rollout_body train) n 1
               (ActorCriticAgent.enter initial_state environment self)))) in
  let terminated := fun n : nat =>
    EVOAgent.answer
      (iterations EVOAgent.rollout_body n 1
         (EVOAgent.enter evo_initial_state evo_environment evo_train evo_self)) in
  ((forall fuel : nat,
      (forall k, (k < fuel)%nat -> all_terminated k = false) ->
      ActorCriticAgent.rollout fuel initial_state environment train self = None)
   /\ (forall n fuel : nat,
         all_terminated n = true ->
         (forall k, (k < n)%nat -> all_terminated k = false) ->
         (n < fuel)%nat ->
         exists es self' environment',
           ActorCriticAgent.rollout fuel initial_state environment train self
           = Some (es, 1 + Z.of_nat n, self', environment')))
  /\ ((forall fuel : nat,
         (forall k, (k < fuel)%nat -> terminated k = false) ->
         EVOAgent.rollout fuel evo_initial_state evo_environment evo_train evo_self
         = None)
      /\ (forall n fuel : nat,
            terminated n = true ->
            (forall k, (k < n)%nat -> terminated k = false) ->
            (n < fuel)%nat ->
            exists es self' environment',
              EVOAgent.rollout fuel evo_initial_state evo_environment evo_train
                evo_self
              = Some (es, 1 + Z.of_nat n, self', environment'))).
Proof.
  intros all_terminated terminated. split; split.
  - intros fuel Hno. apply actor_critic_rollout_running.
    intros k Hk. rewrite actor_critic_breaks_at. by apply Hno.
  - intros n fuel Hyes Hno Hfuel. apply actor_critic_rollout_exits; [| | done].
    + by rewrite actor_critic_breaks_at.
    + intros k Hk. rewrite actor_critic_breaks_at. by apply Hno.
  - intros fuel Hno. apply evo_rollout_running.
    intros k Hk. rewrite evo_breaks_at. by apply Hno.
  - intros n fuel Hyes Hno Hfuel. apply evo_rollout_exits; [| | done].
    + by rewrite evo_breaks_at.
    + intros k Hk. rewrite evo_breaks_at. by apply Hno.
Qed.

End rollout_claims.

Lemma rollout_exits_only_on_terminal_witness :
  (exists es self' environment',
     @ActorCriticAgent.rollout _ _ _ _ (counting_actor_critic (Nat.leb 2))
       5 first_snapshot 0%nat true fresh_actor_critic
     = Some (es, 3, self', environment'))
  /\ (exists es self' environment',
        @EVOAgent.rollout _ _ _ (counting_evo (Nat.leb 2)) 5 tt 0%nat true fresh_evo
        = Some (es, 3, self', environment')).
Proof.
  pose proof (@rollout_exits_only_on_terminal _ _ _ _
                (counting_actor_critic (Nat.leb 2)) _ _ _ (counting_evo (Nat.leb 2))
                true first_snapshot 0%nat fresh_actor_critic
                true tt 0%nat fresh_evo) as [[_ Hac] [_ Hevo]].
  split.
  - apply (Hac 2%nat 5%nat); [reflexivity | | lia].
    intros [|[|k]] Hk; [reflexivity | reflexivity | lia].
  - apply (Hevo 2%nat 5%nat); [reflexivity | | lia].
    intros [|[|k]] Hk; [reflexivity | reflexivity | lia].
Defined.

(** C6, as stated, fails: in an environment that never reports [terminated]
    the loop of a rollout is never left, at no step count; neither
    [ActorCriticAgent.rollout] nor [EVOAgent.rollout] returns. *)
Lemma rollout_never_returns_without_terminal :
  ~ (exists fuel r,
       @ActorCriticAgent.rollout _ _ _ _ (counting_actor_critic (fun _ => false))
         fuel first_snapshot 0%nat true fresh_actor_critic = Some r)
  /\ ~ (exists fuel r,
          @EVOAgent.rollout _ _ _ (counting_evo (fun _ => false))
            fuel tt 0%nat true fresh_evo = Some r).
Proof.
  split; intros (fuel & r & Hret).
  - rewrite (@actor_critic_rollout_running _ _ _ _
               (counting_actor_critic (fun _ => false))) in Hret; [done |].
    intros k _. by rewrite actor_critic_breaks_at.
  - rewrite (@evo_rollout_running _ _ _ (counting_evo (fun _ => false))) in Hret;
      [done |].
    intros k _. by rewrite evo_breaks_at.
Qed.

(** * Further properties of the modelled code *)

(** ** [ValueAgent]: random actions, observation period, failed calls *)

Section value_agent_more.
Context {Model ArchSpec Observation Action : Type}.
Context `{!ValueAgentImpl Model ArchSpec Observation Action}.
Implicit Types self : ValueAgent Model ArchSpec.

#[local] Open Scope R_scope.

(** X1: on an agent whose output shape is a tuple with a positive first
    dimension [n], [_sample_random_process] returns one action per entry of
    [state], each an index in [0, n), and leaves the agent as it is. *)
Theorem random_process_actions_in_range self (state : list Observation)
    (draws : nat -> nat) (n : Z) (dims : list Z) :
  _output_shape (agent self) = ShapeTuple (n :: dims) ->
  (0 < n)%Z ->
  exists actions : list Z,
    _sample_random_process state draws self = (Returned actions, self)
    /\ length actions = length state
    /\ Forall (fun a => (0 <= a < n)%Z) actions.
Proof.
  intros Hshape Hn. unfold _sample_random_process, bind, get. rewrite Hshape.
  replace (n <=? 0)%Z with false by (symmetry; apply Z.leb_gt; lia). simpl.
  eexists. split; [reflexivity | split].
  - by rewrite length_map, length_seq.
  - apply Forall_forall. intros a Ha. apply list_elem_of_In, in_map_iff in Ha.
    destruct Ha as (i & <- & _). apply Z.mod_pos_bound. lia.
Qed.

(** X2: during the initial observation period (new step count at most
    [_initial_observation_period]) a call of [sample] that may sample at
    random always hands over to the random process, whatever the uniform
    draw, also when the draw exceeds the threshold. *)
Theorem sample_observation_period_explores self (state : list Observation)
    (u : R) (draws : nat -> nat) :
  schedule_ok self ->
  (_step_i (agent self) + 1 <= _initial_observation_period self)%Z ->
  sample state false u draws self
  = match _sample_random_process state draws (scheduled self) with
    | (Returned a, s) => (Returned (FromRandomProcess a), s)
    | (Raised e, s) => (Raised e, s)
    end
  /\ exploits (sample state false u draws self) = false.
Proof.
  intros Hok Hiop.
  assert (Hrun : sample state false u draws self
                 = match _sample_random_process state draws (scheduled self) with
                   | (Returned a, s) => (Returned (FromRandomProcess a), s)
                   | (Raised e, s) => (Raised e, s)
                   end).
  { rewrite sample_run by done.
    replace (_initial_observation_period self <? _step_i (agent self) + 1)%Z
      with false by (symmetry; apply Z.ltb_ge; lia).
    by rewrite andb_false_r. }
  split; [exact Hrun |]. rewrite Hrun. unfold exploits.
  destruct (_sample_random_process _ _ _) as [[a|e] s]; reflexivity.
Qed.

(** X3: when the assertion [0 <= end <= start] of the schedule fails, every
    call of [sample] raises [AssertionError], also with
    [disallow_random_sample=True] and at step count [0]; the step counter has
    been incremented all the same and nothing else has changed. *)
Theorem sample_invalid_spec_raises self (state : list Observation)
    (disallow : bool) (u : R) (draws : nat -> nat) :
  ~ (0 <= end_ (_exploration_spec self) <= start (_exploration_spec self)) ->
  sample state disallow u draws self = (Raised AssertionError, stepped self)
  /\ _step_i (agent (snd (sample state disallow u draws self)))
     = (_step_i (agent self) + 1)%Z.
Proof.
  intros Hbad.
  assert (Hrun : sample state disallow u draws self
                 = (Raised AssertionError, stepped self)).
  { rewrite sample_bind. by rewrite (epsilon_assert_fails (stepped self)). }
  split; [exact Hrun |]. by rewrite Hrun.
Qed.


End value_agent_more.

Lemma random_process_actions_in_range_witness :
  _output_shape (agent observing_value_agent) = ShapeTuple [2; 1]
  /\ exists actions : list Z,
       @_sample_random_process unit unit unit [tt; tt; tt] (fun i => (3 * i + 1)%nat)
         observing_value_agent
       = (Returned actions, observing_value_agent)
       /\ length actions = 3%nat
       /\ Forall (fun a => 0 <= a < 2) actions.
Proof.
  split; [reflexivity |].
  apply (@random_process_actions_in_range unit unit unit observing_value_agent
           [tt; tt; tt] (fun i => (3 * i + 1)%nat) 2 [1]); [reflexivity | lia].
Defined.

Lemma observing_value_agent_schedule_ok : schedule_ok observing_value_agent.
Proof. unfold schedule_ok. simpl. lra. Qed.

Lemma sample_observation_period_explores_witness :
  schedule_ok observing_value_agent
  /\ exploits (@sample _ _ _ _ zero_model [tt] false (999 / 1000) (fun _ => 0%nat)
                 observing_value_agent) = false.
Proof.
  split; [exact observing_value_agent_schedule_ok |].
  refine (proj2 (@sample_observation_period_explores _ _ _ _ zero_model
                   observing_value_agent [tt] (999 / 1000)%R (fun _ => 0%nat)
                   observing_value_agent_schedule_ok _)).
  simpl. lia.
Defined.

Lemma inverted_value_agent_spec_invalid :
  ~ (0 <= end_ (_exploration_spec inverted_value_agent)
       <= start (_exploration_spec inverted_value_agent))%R.
Proof. simpl. lra. Qed.

Lemma sample_invalid_spec_raises_witness :
  @sample _ _ _ _ zero_model [tt] true (1 / 2) (fun _ => 0%nat) inverted_value_agent
  = (Raised AssertionError, stepped inverted_value_agent).
Proof.
  exact (proj1 (@sample_invalid_spec_raises _ _ _ _ zero_model inverted_value_agent
                  [tt] true (1 / 2)%R (fun _ => 0%nat)
                  inverted_value_agent_spec_invalid)).
Defined.


(** ** Rollouts: what a returned rollout tells *)

Section for_count_more.
Context {S : Type}.

Lemma for_count_ext (body body' : Z -> S -> S * bool) (fuel : nat) (t : Z) (s : S) :
  (forall t s, body t s = body' t s) ->
  for_count body fuel t s = for_count body' fuel t s.
Proof.
  intros Hext. revert t s. induction fuel as [|fuel IH]; intros t s; simpl; [done |].
  rewrite Hext. destruct (body' t s) as [s' [|]]; [done | apply IH].
Qed.

(** A property that every iteration establishes from an invariant of the loop
    holds of the state with which the loop is left. *)
Lemma for_count_establishes (body : Z -> S -> S * bool) (Inv Post : S -> Prop)
    (fuel : nat) (t t' : Z) (s s' : S) :
  (forall t s, Inv s -> Inv (fst (body t s)) /\ Post (fst (body t s))) ->
  Inv s ->
  for_count body fuel t s = Some (t', s') ->
  Inv s' /\ Post s'.
Proof.
  intros Hstep. revert t s. induction fuel as [|fuel IH]; intros t s Hinv Hrun;
    simpl in Hrun; [done |].
  pose proof (Hstep t s Hinv) as Hnext.
  destruct (body t s) as [s1 [|]]; simpl in Hnext.
  - by simplify_eq.
  - apply (IH (t + 1)%Z s1); tauto.
Qed.

Lemma for_count_returns (body : Z -> S -> S * bool) (fuel : nat) (t t' : Z) (s s' : S) :
  for_count body fuel t s = Some (t', s') ->
  exists n, (n < fuel)%nat /\ t' = t + Z.of_nat n
            /\ s' = iterations body (Datatypes.S n) t s
            /\ breaks_at body n t s = true
            /\ (forall k, (k < n)%nat -> breaks_at body k t s = false).
Proof.
  intros Hrun.
  destruct (for_count_exited body fuel t t' s s' Hrun) as (n & Hn & Ht & Hyes & Hno).
  exists n. rewrite (for_count_exits body n fuel t s Hyes Hno Hn) in Hrun.
  by simplify_eq.
Qed.

End for_count_more.

Section actor_critic_rollout_more.
Context {Observation Action Internals EnvState : Type}.
Context `{!ActorCriticAgent.Impl Observation Action Internals EnvState}.
Implicit Types l : ActorCriticAgent.loop_state Observation Internals EnvState.

(** X5: when [ActorCriticAgent.rollout] returns, the episode length it reports
    is the number of environment steps taken, at least one: the environment
    reported all sub-environments terminated in that step and in none
    before. *)
Theorem actor_critic_rollout_length_is_first_terminal (fuel : nat) (train : bool)
    initial_state environment self (es : R) (el : Z) self' environment' :
  ActorCriticAgent.rollout fuel initial_state environment train self
  = Some (es, el, self', environment') ->
  let all_terminated := fun n : nat =>
    forallb (fun b => b)
      (ActorCriticAgent.terminated
         (ActorCriticAgent.answer train
            (iterations (ActorCriticAgent.rollout_body train) n 1
               (ActorCriticAgent.enter initial_state environment self)))) in
  1 <= el <= Z.of_nat fuel
  /\ all_terminated (Z.to_nat (el - 1)) = true
  /\ (forall k, (k < Z.to_nat (el - 1))%nat -> all_terminated k = false).
Proof.
  intros Hret all_terminated. unfold ActorCriticAgent.rollout in Hret.
  fold (ActorCriticAgent.enter initial_state environment self) in Hret.
  destruct (for_count _ fuel 1 _) as [[t' l']|] eqn:Hrun; [| done].
  destruct (for_count_returns _ _ _ _ _ _ Hrun) as (n & Hn & -> & -> & Hyes & Hno).
  rewrite iterations_S in Hret.
  destruct (actor_critic_body_break train (1 + Z.of_nat n)
              (iterations (ActorCriticAgent.rollout_body train) n 1
                 (ActorCriticAgent.enter initial_state environment self)))
    as [_ Hlen].
  rewrite (Hlen Hyes) in Hret. simplify_eq.
  replace (Z.to_nat (1 + Z.of_nat n - 1)) with n by lia.
  split; [lia | split].
  - subst all_terminated. simpl. by rewrite <- actor_critic_breaks_at.
  - intros k Hk. subst all_terminated. simpl.
    rewrite <- actor_critic_breaks_at. by apply Hno.
Qed.

Lemma actor_critic_body_counters (train : bool) (t : Z) l :
  keeps_counters ->
  ActorCriticAgent._update_i
    (ActorCriticAgent.loop_self (fst (ActorCriticAgent.rollout_body train t l)))
  = ActorCriticAgent._update_i (ActorCriticAgent.loop_self l)
  /\ ActorCriticAgent._step_i
       (ActorCriticAgent.loop_self (fst (ActorCriticAgent.rollout_body train t l)))
     = ActorCriticAgent._step_i (ActorCriticAgent.loop_self l) + 1.
Proof.
  intros (Hsample & Hupdate & Hadd).
  unfold ActorCriticAgent.rollout_body, ActorCriticAgent.sample.
  match goal with |- context [ActorCriticAgent._sample_model ?o ?b ?s] =>
    pose proof (Hsample o b s) as [Hu Hs];
    destruct (ActorCriticAgent._sample_model o b s) as [action self1] end.
  simpl in Hu, Hs.
  destruct (ActorCriticAgent.react _ _) as [snapshot environment1].
  destruct train; destruct (forallb _ _); simpl;
    rewrite ?(proj1 (Hupdate _)), ?(proj2 (Hupdate _)),
            ?(proj1 (Hadd _ _ _ _ _ _)), ?(proj2 (Hadd _ _ _ _ _ _)); done.
Qed.

Lemma actor_critic_iterations_counters (train : bool) (n : nat) (t : Z) l :
  keeps_counters ->
  ActorCriticAgent._update_i
    (ActorCriticAgent.loop_self
       (iterations (ActorCriticAgent.rollout_body train) n t l))
  = ActorCriticAgent._update_i (ActorCriticAgent.loop_self l)
  /\ ActorCriticAgent._step_i
       (ActorCriticAgent.loop_self
          (iterations (ActorCriticAgent.rollout_body train) n t l))
     = ActorCriticAgent._step_i (ActorCriticAgent.loop_self l) + Z.of_nat n.
Proof.
  intros Hkeep. revert t l. induction n as [|n IH]; intros t l.
  - simpl. split; [done | lia].
  - change (iterations (ActorCriticAgent.rollout_body train) (Datatypes.S n) t l)
      with (iterations (ActorCriticAgent.rollout_body train) n (t + 1)
              (fst (ActorCriticAgent.rollout_body train t l))).
    destruct (IH (t + 1) (fst (ActorCriticAgent.rollout_body train t l))) as [-> ->].
    destruct (actor_critic_body_counters train t l Hkeep) as [-> ->].
    split; [done | lia].
Qed.

(** X6: if the collaborators do not assign the counters, a rollout that
    returns has incremented [_update_i] by one and [_step_i] by the episode
    length it reports. *)
Theorem actor_critic_rollout_counters (fuel : nat) (train : bool)
    initial_state environment self (es : R) (el : Z) self' environment' :
  keeps_counters ->
  ActorCriticAgent.rollout fuel initial_state environment train self
  = Some (es, el, self', environment') ->
  ActorCriticAgent._update_i self' = ActorCriticAgent._update_i self + 1
  /\ ActorCriticAgent._step_i self' = ActorCriticAgent._step_i self + el.
Proof.
  intros Hkeep Hret. unfold ActorCriticAgent.rollout in Hret.
  fold (ActorCriticAgent.enter initial_state environment self) in Hret.
  destruct (for_count _ fuel 1 _) as [[t' l']|] eqn:Hrun; [| done].
  destruct (for_count_returns _ _ _ _ _ _ Hrun) as (n & Hn & -> & -> & Hyes & Hno).
  destruct (actor_critic_iterations_counters train (Datatypes.S n) 1
              (ActorCriticAgent.enter initial_state environment self) Hkeep)
    as [Hu Hs].
  rewrite iterations_S in Hret, Hu, Hs.
  destruct (actor_critic_body_break train (1 + Z.of_nat n)
              (iterations (ActorCriticAgent.rollout_body train) n 1
                 (ActorCriticAgent.enter initial_state environment self)))
    as [_ Hlen].
  rewrite (Hlen Hyes) in Hret. simplify_eq.
  rewrite Hu, Hs. simpl. split; lia.
Qed.

End actor_critic_rollout_more.

Section actor_critic_rollout_evaluation.
Context {Observation Action Internals EnvState : Type}.

(** X7: a rollout with [train=False] calls neither [update] nor the
    transition buffer: two agent classes that agree on [_sample_model] and on
    the environment produce the same rollout, whatever their learning steps
    do. *)
Theorem actor_critic_evaluation_rollout_ignores_learning
    (I1 I2 : ActorCriticAgent.Impl Observation Action Internals EnvState)
    (fuel : nat) initial_state (environment : EnvState)
    (self : ActorCriticAgent.t Internals) :
  (forall o b s,
     @ActorCriticAgent._sample_model _ _ _ _ I1 o b s
     = @ActorCriticAgent._sample_model _ _ _ _ I2 o b s) ->
  (forall a e,
     @ActorCriticAgent.react _ _ _ _ I1 a e = @ActorCriticAgent.react _ _ _ _ I2 a e) ->
  @ActorCriticAgent.rollout _ _ _ _ I1 fuel initial_state environment false self
  = @ActorCriticAgent.rollout _ _ _ _ I2 fuel initial_state environment false self.
Proof.
  intros Hsample Hreact. unfold ActorCriticAgent.rollout.
  rewrite (for_count_ext (@ActorCriticAgent.rollout_body _ _ _ _ I1 false)
             (@ActorCriticAgent.rollout_body _ _ _ _ I2 false)); [done |].
  intros t l. unfold ActorCriticAgent.rollout_body, ActorCriticAgent.sample.
  rewrite Hsample. destruct (ActorCriticAgent._sample_model _ _ _) as [action self1].
  by rewrite Hreact.
Qed.

End actor_critic_rollout_evaluation.

Section clipped_signals.
#[local] Open Scope R_scope.

Lemma np_clip_in_range (signal : list R) :
  Forall (fun x => -1 <= x <= 1) (np_clip signal).
Proof.
  unfold np_clip. apply Forall_forall. intros x Hx.
  apply list_elem_of_In, in_map_iff in Hx. destruct Hx as (y & <- & _).
  split.
  - apply Rmax_l.
  - apply Rmax_lub; [lra | apply Rmin_r].
Qed.

Lemma sum_in_range (xs : list R) :
  Forall (fun x => -1 <= x <= 1) xs ->
  - INR (length xs) <= foldr Rplus 0 xs <= INR (length xs).
Proof.
  induction 1 as [|x xs Hx _ IH].
  - simpl. lra.
  - change (length (x :: xs)) with (Datatypes.S (length xs)). rewrite S_INR.
    simpl. lra.
Qed.

Lemma np_mean_in_range (xs : list (list R)) :
  concat xs <> [] ->
  Forall (Forall (fun x => -1 <= x <= 1)) xs ->
  -1 <= np_mean xs <= 1.
Proof.
  intros Hne Hall. unfold np_mean.
  assert (Hflat : Forall (fun x => -1 <= x <= 1) (concat xs)).
  { apply Forall_concat. exact Hall. }
  pose proof (sum_in_range _ Hflat) as Hsum.
  assert (Hlen : 0 < INR (length (concat xs))).
  { apply lt_0_INR. destruct (concat xs); [done | simpl; lia]. }
  split.
  - apply (Rmult_le_reg_r (INR (length (concat xs)))); [done |].
    unfold Rdiv. rewrite Rmult_assoc, Rinv_l by lra. lra.
  - apply (Rmult_le_reg_r (INR (length (concat xs)))); [done |].
    unfold Rdiv. rewrite Rmult_assoc, Rinv_l by lra. lra.
Qed.

Context {Observation Action Internals EnvState : Type}.
Context `{!ActorCriticAgent.Impl Observation Action Internals EnvState}.
Implicit Types l : ActorCriticAgent.loop_state Observation Internals EnvState.

Lemma actor_critic_body_clips (train : bool) (t : Z) l :
  keeps_signal_clipping ->
  signals_nonempty ->
  ActorCriticAgent._signal_clipping (ActorCriticAgent.loop_self l) = true ->
  Forall (fun v => v <> [] /\ Forall (fun x => -1 <= x <= 1) v)
         (ActorCriticAgent.episode_signal l) ->
  let l' := fst (ActorCriticAgent.rollout_body train t l) in
  ActorCriticAgent._signal_clipping (ActorCriticAgent.loop_self l') = true
  /\ Forall (fun v => v <> [] /\ Forall (fun x => -1 <= x <= 1) v)
            (ActorCriticAgent.episode_signal l')
  /\ ActorCriticAgent.episode_signal l' <> [].
Proof.
  intros (Hsample & Hupdate & Hadd) Hne Hflag Hsig.
  unfold ActorCriticAgent.rollout_body, ActorCriticAgent.sample.
  match goal with |- context [ActorCriticAgent._sample_model ?o ?b ?s] =>
    pose proof (Hsample o b s) as Hf;
    destruct (ActorCriticAgent._sample_model o b s) as [action self1] end.
  simpl in Hf. rewrite Hflag in Hf.
  pose proof (Hne action (ActorCriticAgent.loop_environment l)) as Hne1.
  destruct (ActorCriticAgent.react _ _) as [snapshot environment1].
  simpl in Hne1. rewrite Hf.
  assert (Hnew : Forall (fun v => v <> [] /\ Forall (fun x => -1 <= x <= 1) v)
                   (ActorCriticAgent.episode_signal l
                    ++ [np_clip (ActorCriticAgent.signal snapshot)])).
  { apply Forall_app. split; [done |]. apply Forall_singleton. split.
    - unfold np_clip. destruct (ActorCriticAgent.signal snapshot); [done | discriminate].
    - apply np_clip_in_range. }
  assert (Hnil : ActorCriticAgent.episode_signal l
                 ++ [np_clip (ActorCriticAgent.signal snapshot)] <> [])
    by (by destruct (ActorCriticAgent.episode_signal l)).
  destruct train; destruct (forallb _ _); simpl;
    rewrite ?Hupdate, ?Hadd; done.
Qed.

(** X8: with [_signal_clipping] on (and not switched off by the
    collaborators) and an environment that answers with at least one signal,
    the mean signal a rollout returns lies in [-1, 1]. *)
Theorem actor_critic_clipped_mean_signal_in_range (fuel : nat) (train : bool)
    initial_state environment self (es : R) (el : Z) self' environment' :
  keeps_signal_clipping ->
  signals_nonempty ->
  ActorCriticAgent._signal_clipping self = true ->
  ActorCriticAgent.rollout fuel initial_state environment train self
  = Some (es, el, self', environment') ->
  -1 <= es <= 1.
Proof.
  intros Hkeep Hne Hflag Hret. unfold ActorCriticAgent.rollout in Hret.
  fold (ActorCriticAgent.enter initial_state environment self) in Hret.
  destruct (for_count _ fuel 1 _) as [[t' l']|] eqn:Hrun; [| done].
  simplify_eq.
  destruct (for_count_establishes (ActorCriticAgent.rollout_body train)
              (fun l => ActorCriticAgent._signal_clipping
                          (ActorCriticAgent.loop_self l) = true
                        /\ Forall (fun v => v <> [] /\ Forall (fun x => -1 <= x <= 1) v)
                                  (ActorCriticAgent.episode_signal l))
              (fun l => ActorCriticAgent.episode_signal l <> [])
              fuel 1 t' (ActorCriticAgent.enter initial_state environment self) l')
    as [[_ Hall] Hnil].
  - intros t l [Hf Hs].
    destruct (actor_critic_body_clips train t l Hkeep Hne Hf Hs) as (? & ? & ?).
    tauto.
  - split; [exact Hflag | apply Forall_nil_2].
  - exact Hrun.
  - apply np_mean_in_range.
    + destruct (ActorCriticAgent.episode_signal l') as [|v vs]; [done |].
      apply Forall_cons in Hall as [[Hv _] _]. simpl.
      destruct v; [done | discriminate].
    + eapply Forall_impl; [exact Hall |]. by intros v [_ ?].
Qed.

End clipped_signals.

Section evo_rollout_more.
Context {Observation Internals EnvState : Type}.
Context `{!EVOAgent.Impl Observation Internals EnvState}.
Implicit Types l : EVOAgent.loop_state Observation Internals EnvState.

#[local] Open Scope R_scope.

Lemma evo_body_signal (t : Z) l :
  EVOAgent.loop_episode_signal (fst (EVOAgent.rollout_body t l))
  = EVOAgent.loop_episode_signal l + evo_signal l.
Proof.
  unfold EVOAgent.rollout_body, evo_signal.
  destruct (EVOAgent.sample_action _ _) as [action self1]. simpl.
  destruct (EVOAgent.step _ _) as [[[state signal] terminated] environment1]. simpl.
  by destruct terminated.
Qed.

Lemma evo_iterations_signal (n : nat) l :
  EVOAgent.loop_episode_signal (iterations EVOAgent.rollout_body n 1 l)
  = EVOAgent.loop_episode_signal l + foldr Rplus 0 (evo_signals n l).
Proof.
  induction n as [|n IH].
  - simpl. lra.
  - rewrite iterations_S, evo_body_signal, IH.
    unfold evo_signals. rewrite seq_S, map_app, foldr_app. simpl.
    generalize (map (fun k => evo_signal (iterations EVOAgent.rollout_body k 1 l))
                    (seq 0 n)).
    intros xs. rewrite Rplus_assoc. f_equal.
    induction xs as [|x xs IHxs]; simpl; [lra |]. rewrite <- IHxs. lra.
Qed.

(** X9: when [EVOAgent.rollout] returns, the episode length is the number of
    environment steps taken, the first in which the environment answered
    [terminated], and the episode signal is the sum of the signals of these
    steps. *)
Theorem evo_rollout_sums_signals (fuel : nat) (train : bool)
    initial_state environment self (es : R) (el : Z) self' environment' :
  EVOAgent.rollout fuel initial_state environment train self
  = Some (es, el, self', environment') ->
  let l0 := EVOAgent.enter initial_state environment train self in
  (1 <= el <= Z.of_nat fuel)%Z
  /\ EVOAgent.answer (iterations EVOAgent.rollout_body (Z.to_nat (el - 1)) 1 l0)
     = true
  /\ (forall k, (k < Z.to_nat (el - 1))%nat ->
        EVOAgent.answer (iterations EVOAgent.rollout_body k 1 l0) = false)
  /\ es = foldr Rplus 0 (evo_signals (Z.to_nat el) l0).
Proof.
  intros Hret l0. unfold EVOAgent.rollout in Hret.
  fold (EVOAgent.enter initial_state environment train self) in Hret. fold l0 in Hret.
  destruct (for_count _ fuel 1 _) as [[t' l']|] eqn:Hrun; [| done].
  destruct (for_count_returns _ _ _ _ _ _ Hrun) as (n & Hn & -> & -> & Hyes & Hno).
  pose proof (evo_iterations_signal (Datatypes.S n) l0) as Hsum.
  rewrite iterations_S in Hret, Hsum.
  destruct (evo_body_break (1 + Z.of_nat n)
              (iterations EVOAgent.rollout_body n 1 l0)) as [_ Hlen].
  rewrite (Hlen Hyes) in Hret. simplify_eq.
  replace (Z.to_nat (1 + Z.of_nat n - 1)) with n by lia.
  replace (Z.to_nat (1 + Z.of_nat n)) with (Datatypes.S n) by lia.
  split; [lia | split; [| split]].
  - by rewrite <- evo_breaks_at.
  - intros k Hk. rewrite <- evo_breaks_at. by apply Hno.
  - rewrite Hsum. subst l0. simpl. lra.
Qed.

End evo_rollout_more.

Lemma actor_critic_rollout_length_is_first_terminal_witness :
  @ActorCriticAgent.rollout _ _ _ _ (counting_actor_critic (Nat.leb 2))
    5 first_snapshot 0%nat true fresh_actor_critic
  = Some (np_mean [[1%R]; [1%R]; [1%R]], 3, ActorCriticAgent.mk 1 3 false tt, 3%nat)
  /\ 1 <= 3 <= Z.of_nat 5.
Proof.
  assert (Hret : @ActorCriticAgent.rollout _ _ _ _ (counting_actor_critic (Nat.leb 2))
                   5 first_snapshot 0%nat true fresh_actor_critic
                 = Some (np_mean [[1%R]; [1%R]; [1%R]], 3,
                         ActorCriticAgent.mk 1 3 false tt, 3%nat)) by reflexivity.
  split; [exact Hret |].
  exact (proj1 (@actor_critic_rollout_length_is_first_terminal _ _ _ _
                  (counting_actor_critic (Nat.leb 2)) 5 true first_snapshot 0%nat
                  fresh_actor_critic _ _ _ _ Hret)).
Defined.

Lemma counting_actor_critic_keeps_counters (stops : nat -> bool) :
  @keeps_counters _ _ _ _ (counting_actor_critic stops).
Proof. repeat split. Qed.

Lemma actor_critic_rollout_counters_witness :
  @keeps_counters _ _ _ _ (counting_actor_critic (Nat.leb 2))
  /\ ActorCriticAgent._step_i (ActorCriticAgent.mk 1 3 false tt)
     = ActorCriticAgent._step_i fresh_actor_critic + 3.
Proof.
  split; [apply counting_actor_critic_keeps_counters |].
  refine (proj2 (@actor_critic_rollout_counters _ _ _ _
                   (counting_actor_critic (Nat.leb 2)) 5 true first_snapshot 0%nat
                   fresh_actor_critic (np_mean [[1%R]; [1%R]; [1%R]]) 3
                   (ActorCriticAgent.mk 1 3 false tt) 3%nat
                   (counting_actor_critic_keeps_counters _) _)).
  reflexivity.
Defined.

Lemma actor_critic_evaluation_rollout_ignores_learning_witness :
  @ActorCriticAgent.rollout _ _ _ _ (learning_actor_critic (Nat.leb 2))
    5 first_snapshot 0%nat false (ActorCriticAgent.mk 0 0 false 0%nat)
  = @ActorCriticAgent.rollout _ _ _ _ (idle_actor_critic (Nat.leb 2))
      5 first_snapshot 0%nat false (ActorCriticAgent.mk 0 0 false 0%nat).
Proof.
  apply (actor_critic_evaluation_rollout_ignores_learning
           (learning_actor_critic (Nat.leb 2)) (idle_actor_critic (Nat.leb 2)));
    intros; reflexivity.
Defined.

Lemma loud_actor_critic_keeps_signal_clipping :
  @keeps_signal_clipping _ _ _ _ loud_actor_critic.
Proof. repeat split. Qed.

Lemma loud_actor_critic_signals_nonempty : @signals_nonempty _ _ _ _ loud_actor_critic.
Proof. intros a e. discriminate. Qed.

Lemma actor_critic_clipped_mean_signal_in_range_witness :
  @ActorCriticAgent.rollout _ _ _ _ loud_actor_critic 5 first_snapshot 0%nat true
    clipping_actor_critic
  = Some (np_mean [np_clip [5; -7]; np_clip [5; -7]; np_clip [5; -7]]%R, 3,
          ActorCriticAgent.mk 1 3 true tt, 3%nat)
  /\ (-1 <= np_mean [np_clip [5; -7]; np_clip [5; -7]; np_clip [5; -7]] <= 1)%R.
Proof.
  assert (Hret : @ActorCriticAgent.rollout _ _ _ _ loud_actor_critic 5 first_snapshot
                   0%nat true clipping_actor_critic
                 = Some (np_mean [np_clip [5; -7]; np_clip [5; -7];
                                  np_clip [5; -7]]%R, 3,
                         ActorCriticAgent.mk 1 3 true tt, 3%nat)) by reflexivity.
  split; [exact Hret |].
  exact (@actor_critic_clipped_mean_signal_in_range _ _ _ _ loud_actor_critic
           5 true first_snapshot 0%nat clipping_actor_critic _ _ _ _
           loud_actor_critic_keeps_signal_clipping
           loud_actor_critic_signals_nonempty eq_refl Hret).
Defined.

Lemma evo_rollout_sums_signals_witness :
  @EVOAgent.rollout _ _ _ (counting_evo (Nat.leb 2)) 5 tt 0%nat true fresh_evo
  = Some ((0 + 1 + 1 + 1)%R, 3, EVOAgent.mk 1 tt, 3%nat)
  /\ (0 + 1 + 1 + 1)%R
     = foldr Rplus 0%R
         (@evo_signals _ _ _ (counting_evo (Nat.leb 2)) (Z.to_nat 3)
            (EVOAgent.enter tt 0%nat true fresh_evo)).
Proof.
  assert (Hret : @EVOAgent.rollout _ _ _ (counting_evo (Nat.leb 2)) 5 tt 0%nat true
                   fresh_evo
                 = Some ((0 + 1 + 1 + 1)%R, 3, EVOAgent.mk 1 tt, 3%nat))
    by reflexivity.
  split; [exact Hret |].
  exact (proj2 (proj2 (proj2
           (@evo_rollout_sums_signals _ _ _ (counting_evo (Nat.leb 2)) 5 true tt
              0%nat fresh_evo _ _ _ _ Hret)))).
Defined.

(** ** [train_episodically]: stopping, empty ranges, rendering *)

Section episodically_more.
Context {World Observation : Type} `{!Training World Observation}.

Lemma train_loop_stops_on_request (render_frequency stat_frequency : Z)
    (E : list Z) (w : World) :
  fst (train_loop render_frequency stat_frequency E w) = E
  \/ agent_end_training (snd (train_loop render_frequency stat_frequency E w)) = true.
Proof.
  revert w. induction E as [|episode_i E IH]; intros w; simpl; [by left |].
  destruct (environment_reset w) as [initial_state w1].
  destruct (agent_end_training _) eqn:Hstop; simpl; [by right |].
  specialize (IH (agent_rollout initial_state
                    (if every render_frequency episode_i then true else false)
                    (if every stat_frequency episode_i then true else false) w1)).
  destruct (train_loop _ _ E _) as [episodes w2]; simpl in *.
  destruct IH as [-> | ?]; [by left | by right].
Qed.

(** X10: [train_episodically] ends before the last episode of
    [range(1, rollouts)] only on the agent's request: if fewer episodes were
    run, [agent.end_training] holds of the final state. *)
Theorem train_episodically_stops_early_only_on_request
    (n render_frequency stat_frequency : Z) (w : World) :
  fst (train_episodically n render_frequency stat_frequency w) <> py_range 1 n ->
  agent_end_training (snd (train_episodically n render_frequency stat_frequency w))
  = true.
Proof.
  intros Hless. unfold train_episodically in *.
  destruct (train_loop_stops_on_request render_frequency stat_frequency
              (py_range 1 n) w) as [? | ?]; done.
Qed.

(** X11: with [rollouts <= 1] the range of episodes is empty:
    [train_episodically] runs no episode and neither resets the environment
    nor touches the agent. *)
Theorem train_episodically_empty_range
    (n render_frequency stat_frequency : Z) (w : World) :
  n <= 1 ->
  train_episodically n render_frequency stat_frequency w = ([], w).
Proof.
  intros Hn. unfold train_episodically, py_range.
  assert (Hnil : seqZ 1 (n - 1) = []).
  { apply nil_length_inv. rewrite length_seqZ. lia. }
  by rewrite Hnil.
Qed.

(** X12: the request to stop is looked at only after a rollout: if
    [agent.end_training] already holds and keeps holding, a training with
    [rollouts >= 2] still resets the environment and runs episode [1], and
    only that one. *)
Theorem train_episodically_runs_one_episode_when_stopped
    (n render_frequency stat_frequency : Z) (w : World) :
  2 <= n ->
  (forall w', agent_end_training w' = true) ->
  train_episodically n render_frequency stat_frequency w
  = ([1],
     agent_rollout (fst (environment_reset w))
       (every render_frequency 1) (every stat_frequency 1)
       (snd (environment_reset w))).
Proof.
  intros Hn Hstop. unfold train_episodically, py_range.
  assert (Hcons : seqZ 1 (n - 1) = 1 :: seqZ 2 (n - 2)).
  { rewrite seqZ_cons by lia. do 2 f_equal; lia. }
  rewrite Hcons. simpl.
  destruct (environment_reset w) as [initial_state w1]. simpl.
  rewrite Hstop.
  by destruct (every render_frequency 1), (every stat_frequency 1).
Qed.

Lemma lookup_map {A B : Type} (f : A -> B) (l : list A) (i : nat) :
  map f l !! i = f <$> l !! i.
Proof.
  revert i. induction l as [|x l IH]; intros [|i]; simpl; done.
Qed.

Lemma every_spec (frequency episode_i : Z) :
  every frequency episode_i = true <-> frequency <> 0 /\ (frequency | episode_i).
Proof.
  unfold every. rewrite andb_true_iff, negb_true_iff, Z.eqb_neq, Z.eqb_eq.
  split.
  - intros [Hf He]. split; [done |]. by apply Z.mod_divide.
  - intros [Hf He]. split; [done |]. by apply Z.mod_divide.
Qed.

Lemma train_loop_recording (render_frequency stat_frequency : Z) (E : list Z)
    (w : World) (log : list (bool * bool)) :
  @train_loop _ _ (recording _) render_frequency stat_frequency E (w, log)
  = (fst (train_loop render_frequency stat_frequency E w),
     (snd (train_loop render_frequency stat_frequency E w),
      log ++ map (fun e => (every render_frequency e, every stat_frequency e))
                 (fst (train_loop render_frequency stat_frequency E w)))).
Proof.
  revert w log. induction E as [|episode_i E IH]; intros w log; simpl.
  - by rewrite app_nil_r.
  - destruct (environment_reset w) as [initial_state w1]. simpl.
    destruct (agent_end_training _) eqn:Hstop; simpl.
    + by destruct (every render_frequency episode_i),
                  (every stat_frequency episode_i).
    + rewrite IH.
      destruct (train_loop _ _ E _) as [episodes w2]. simpl.
      rewrite <- app_assoc. simpl.
      by destruct (every render_frequency episode_i),
                  (every stat_frequency episode_i).
Qed.

(** X13: [agent.rollout] is asked to render exactly in the episodes whose
    index is a multiple of a non-zero [render_frequency], and is given the
    metric writer exactly in those whose index is a multiple of a non-zero
    [stat_frequency]; a frequency of [0] switches the feature off. Recording
    the arguments changes neither the episodes run nor the final state. *)
Theorem train_episodically_render_and_writer_schedule
    (n render_frequency stat_frequency : Z) (w : World) :
  let plain := train_episodically n render_frequency stat_frequency w in
  let recorded :=
    @train_episodically _ _ (recording _) n render_frequency stat_frequency (w, []) in
  fst recorded = fst plain
  /\ fst (snd recorded) = snd plain
  /\ length (snd (snd recorded)) = length (fst plain)
  /\ forall (i : nat) (episode_i : Z) (render writer : bool),
       fst plain !! i = Some episode_i ->
       snd (snd recorded) !! i = Some (render, writer) ->
       (render = true <-> render_frequency <> 0 /\ (render_frequency | episode_i))
       /\ (writer = true <-> stat_frequency <> 0 /\ (stat_frequency | episode_i)).
Proof.
  intros plain recorded. subst plain recorded. unfold train_episodically.
  rewrite train_loop_recording. simpl.
  split; [done | split; [done | split]].
  - by rewrite length_map.
  - intros i episode_i render writer Hi Hlog.
    rewrite lookup_map, Hi in Hlog. simpl in Hlog.
    simplify_eq. split; apply every_spec.
Qed.

End episodically_more.

Lemma train_episodically_stops_early_only_on_request_witness :
  fst (@train_episodically _ _ stopped_training 4 100 10 0%nat) <> py_range 1 4
  /\ @agent_end_training _ _ stopped_training
       (snd (@train_episodically _ _ stopped_training 4 100 10 0%nat)) = true.
Proof.
  assert (Hless : fst (@train_episodically _ _ stopped_training 4 100 10 0%nat)
                  <> py_range 1 4) by (vm_compute; discriminate).
  split; [exact Hless |].
  exact (@train_episodically_stops_early_only_on_request _ _ stopped_training
           4 100 10 0%nat Hless).
Defined.

Lemma train_episodically_empty_range_witness :
  1 <= 1 /\ @train_episodically _ _ counting_training 1 100 10 0%nat = ([], 0%nat).
Proof.
  split; [lia |].
  apply (@train_episodically_empty_range _ _ counting_training 1 100 10 0%nat). lia.
Defined.

Lemma train_episodically_runs_one_episode_when_stopped_witness :
  2 <= 3
  /\ @train_episodically _ _ stopped_training 3 100 10 0%nat = ([1], 1%nat).
Proof.
  split; [lia |].
  apply (@train_episodically_runs_one_episode_when_stopped _ _ stopped_training
           3 100 10 0%nat); [lia | reflexivity].
Defined.

Lemma train_episodically_render_and_writer_schedule_witness :
  fst (@train_episodically _ _ counting_training 12 5 0 0%nat) !! 4%nat = Some 5
  /\ snd (snd (@train_episodically _ _ (recording counting_training) 12 5 0
                 (0%nat, []))) !! 4%nat = Some (true, false)
  /\ (true = true <-> 5 <> 0 /\ (5 | 5)).
Proof.
  assert (Hi : fst (@train_episodically _ _ counting_training 12 5 0 0%nat) !! 4%nat = Some 5)
    by reflexivity.
  assert (Hlog : snd (snd (@train_episodically _ _ (recording counting_training)
                             12 5 0 (0%nat, []))) !! 4%nat = Some (true, false))
    by reflexivity.
  split; [exact Hi | split; [exact Hlog |]].
  exact (proj1 (proj2 (proj2 (proj2
           (@train_episodically_render_and_writer_schedule _ _ counting_training
              12 5 0 0%nat))) 4%nat 5 true false Hi Hlog)).
Defined.

(** ** [Agent]: shape inference and [run] *)


Section agent_run_facts.
Context {Observation Action Self EnvState : Type}.
Context `{!AgentRun.Impl Observation Action Self EnvState}.

(** X15: [Agent.run] never returns: its loop over episodes has no exit, so
    after any number of iterations it is still running, also when every
    episode terminates. *)
Theorem agent_run_never_returns (fuel : nat) (episode_i : Z) (self : Self)
    (environment : EnvState) :
  AgentRun.run fuel episode_i self environment = None.
Proof.
  revert episode_i self environment.
  induction fuel as [|fuel IH]; intros episode_i self environment; simpl; [done |].
  destruct (AgentRun.episode fuel self environment) as [[self1 environment1]|];
    [apply IH | done].
Qed.

End agent_run_facts.

(** ** Insertion-ordered dictionaries *)

Section odict_facts.
Context {K V : Type} `{EqDecision K}.
Implicit Types (k : K) (v : V) (d : list (K * V)).

Lemma od_get_set_eq k v d : od_get k (od_set k v d) = Some v.
Proof.
  induction d as [|[k' v'] d IH]; simpl.
  - by rewrite decide_True.
  - destruct (decide (k = k')) as [<- | Hne]; simpl.
    + by rewrite decide_True.
    + by rewrite decide_False.
Qed.

Lemma od_get_set_ne k k' v d : k <> k' -> od_get k' (od_set k v d) = od_get k' d.
Proof.
  intros Hne. induction d as [|[k1 v1] d IH]; simpl.
  - by rewrite decide_False.
  - destruct (decide (k = k1)) as [<- | Hne1]; simpl.
    + by rewrite !decide_False.
    + destruct (decide (k' = k1)); done.
Qed.

Lemma od_set_present k v d :
  is_Some (od_get k d) -> od_keys (od_set k v d) = od_keys d.
Proof.
  induction d as [|[k' v'] d IH]; simpl; intros Hin.
  - by destruct Hin.
  - destruct (decide (k = k')) as [<- | Hne]; simpl; [done |].
    f_equal. by apply IH.
Qed.

Lemma od_set_absent k v d : od_get k d = None -> od_set k v d = d ++ [(k, v)].
Proof.
  induction d as [|[k' v'] d IH]; simpl; intros Hout; [done |].
  destruct (decide (k = k')); [done |]. f_equal. by apply IH.
Qed.

Lemma od_set_set k v v' d : od_set k v' (od_set k v d) = od_set k v' d.
Proof.
  induction d as [|[k' v1] d IH]; simpl.
  - by rewrite decide_True.
  - destruct (decide (k = k')) as [<- | Hne]; simpl.
    + by rewrite decide_True.
    + rewrite decide_False by done. by rewrite IH.
Qed.

Lemma od_set_same k v d : od_get k d = Some v -> od_set k v d = d.
Proof.
  induction d as [|[k' v'] d IH]; simpl; intros Hin; [done |].
  destruct (decide (k = k')) as [<- | Hne]; [by simplify_eq |].
  f_equal. by apply IH.
Qed.

Lemma od_keys_get k d : k ∈ od_keys d <-> is_Some (od_get k d).
Proof.
  induction d as [|[k' v'] d IH]; simpl.
  - split; [by intros ?%elem_of_nil | by intros [? ?]].
  - rewrite elem_of_cons, IH.
    destruct (decide (k = k')) as [<- | Hne]; [by split; eauto |].
    split; [by intros [? | ?] | by right].
Qed.

End odict_facts.

(** ** [EnvModel] *)

Section env_model_facts.
Context {State Action Reward : Type}.
Context `{EqDecision State, EqDecision Action, EqDecision Reward}.
Implicit Types (m : EnvModel.t State Action Reward)
  (key : State * Action * Reward * State).

Lemma inner_present (s : State) (a : Action) m d :
  od_get (s, a) m = Some d -> EnvModel.inner (Reward := Reward) s a m = (d, m).
Proof. intros Hd. unfold EnvModel.inner. by rewrite Hd. Qed.

Lemma inner_absent (s : State) (a : Action) m :
  od_get (s, a) m = None ->
  EnvModel.inner (Reward := Reward) s a m = ([], od_set (s, a) [] m).
Proof. intros Hd. unfold EnvModel.inner. by rewrite Hd. Qed.

(** After a write the outer dictionary holds, under [(s, a)], the inner
    dictionary that was there (or an empty one) with the outcome set. *)
Lemma setitem_unfold (s : State) (a : Action) (r : Reward) (s_ : State) (v : Z) m :
  EnvModel.__setitem__ (s, a, r, s_) v m
  = od_set (s, a) (od_set (r, s_) v (default [] (od_get (s, a) m))) m.
Proof.
  unfold EnvModel.__setitem__, EnvModel.inner.
  destruct (od_get (s, a) m) as [d|] eqn:Hd; simpl; [done |].
  by rewrite od_set_set.
Qed.

Lemma getitem_value key m : fst (EnvModel.__getitem__ key m) = EnvModel.stored key m.
Proof.
  destruct key as [[[s a] r] s_]. unfold EnvModel.__getitem__, EnvModel.stored,
    EnvModel.inner.
  destruct (od_get (s, a) m) as [d|]; simpl.
  - by destruct (od_get (r, s_) d).
  - done.
Qed.

Lemma getitem_state (s : State) (a : Action) (r : Reward) (s_ : State) m :
  snd (EnvModel.__getitem__ (s, a, r, s_) m)
  = match od_get (s, a) m with
    | Some d => match od_get (r, s_) d with
                | Some _ => m
                | None => od_set (s, a) (od_set (r, s_) 0 d) m
                end
    | None => od_set (s, a) [((r, s_), 0)] m
    end.
Proof.
  unfold EnvModel.__getitem__, EnvModel.inner.
  destruct (od_get (s, a) m) as [d|]; simpl.
  - by destruct (od_get (r, s_) d).
  - by rewrite od_set_set.
Qed.

Lemma stored_setitem_eq key (v : Z) m :
  EnvModel.stored key (EnvModel.__setitem__ key v m) = v.
Proof.
  destruct key as [[[s a] r] s_]. rewrite setitem_unfold. unfold EnvModel.stored.
  by rewrite !od_get_set_eq.
Qed.

Lemma stored_setitem_ne key key' (v : Z) m :
  key <> key' ->
  EnvModel.stored key' (EnvModel.__setitem__ key v m) = EnvModel.stored key' m.
Proof.
  destruct key as [[[s a] r] s_], key' as [[[s' a'] r'] s_']. intros Hne.
  rewrite setitem_unfold. unfold EnvModel.stored.
  destruct (decide ((s, a) = (s', a'))) as [Heq | Hsa].
  - simplify_eq. rewrite od_get_set_eq.
    rewrite od_get_set_ne by congruence.
    by destruct (od_get (s', a') m).
  - by rewrite od_get_set_ne.
Qed.

Lemma stored_getitem key key' m :
  EnvModel.stored key' (snd (EnvModel.__getitem__ key m)) = EnvModel.stored key' m.
Proof.
  destruct key as [[[s a] r] s_], key' as [[[s' a'] r'] s_'].
  rewrite getitem_state. unfold EnvModel.stored.
  destruct (od_get (s, a) m) as [d|] eqn:Hd.
  - destruct (od_get (r, s_) d) eqn:Hr; [done |].
    destruct (decide ((s, a) = (s', a'))) as [Heq | Hsa].
    + simplify_eq. rewrite od_get_set_eq, Hd.
      destruct (decide ((r, s_) = (r', s_'))) as [Heq | Hrs].
      * simplify_eq. by rewrite od_get_set_eq, Hr.
      * by rewrite od_get_set_ne.
    + by rewrite od_get_set_ne.
  - destruct (decide ((s, a) = (s', a'))) as [Heq | Hsa].
    + simplify_eq. rewrite od_get_set_eq, Hd. simpl.
      by destruct (decide ((r', s_') = (r, s_))).
    + by rewrite od_get_set_ne.
Qed.

(** X16: a count written with [M[key] = v] is read back by [M[key]], and the
    read leaves the model as the write left it. *)
Theorem env_model_write_then_read key (v : Z) m :
  EnvModel.__getitem__ key (EnvModel.__setitem__ key v m)
  = (v, EnvModel.__setitem__ key v m).
Proof.
  destruct key as [[[s a] r] s_].
  apply injective_projections.
  - rewrite getitem_value. apply stored_setitem_eq.
  - rewrite getitem_state, setitem_unfold. simpl. by rewrite !od_get_set_eq.
Qed.

(** X17: a write to one key does not change the count read under any other
    key. *)
Theorem env_model_write_keeps_other_counts key key' (v : Z) m :
  key <> key' ->
  fst (EnvModel.__getitem__ key' (EnvModel.__setitem__ key v m))
  = fst (EnvModel.__getitem__ key' m).
Proof. intros Hne. rewrite !getitem_value. by apply stored_setitem_ne. Qed.

(** X18: reading [M[(s, a, r, s_)]] registers what it looks up: afterwards
    [(s, a)] is among [state_action_pairs()] and [(r, s_)] among
    [reward_outcome_pairs(s, a)], with the count that was read, so a second
    read changes nothing more. For a pair [(s, a)] that the model had not
    seen, the read answers [0] and appends the pair to
    [state_action_pairs()]. *)
Theorem env_model_read_registers (s : State) (a : Action) (r : Reward) (s_ : State) m :
  let v := fst (EnvModel.__getitem__ (s, a, r, s_) m) in
  let m' := snd (EnvModel.__getitem__ (s, a, r, s_) m) in
  (s, a) ∈ EnvModel.state_action_pairs m'
  /\ (r, s_) ∈ fst (EnvModel.reward_outcome_pairs s a m')
  /\ EnvModel.__getitem__ (s, a, r, s_) m' = (v, m')
  /\ ((s, a) ∉ EnvModel.state_action_pairs m ->
      v = 0
      /\ EnvModel.state_action_pairs m' = EnvModel.state_action_pairs m ++ [(s, a)]).
Proof.
  intros v m'.
  assert (Hinner : exists d, od_get (s, a) m' = Some d
                             /\ od_get (r, s_) d = Some v).
  { subst v m'. rewrite getitem_value, getitem_state. unfold EnvModel.stored.
    destruct (od_get (s, a) m) as [d|] eqn:Hd.
    - destruct (od_get (r, s_) d) as [c|] eqn:Hr.
      + exists d. by rewrite Hd.
      + eexists. rewrite od_get_set_eq. split; [done |]. by rewrite od_get_set_eq.
    - eexists. rewrite od_get_set_eq. split; [done |]. simpl.
      by rewrite decide_True. }
  destruct Hinner as (d & Hd & Hr).
  split; [| split; [| split]].
  - unfold EnvModel.state_action_pairs. apply od_keys_get. by rewrite Hd.
  - unfold EnvModel.reward_outcome_pairs. rewrite (inner_present _ _ _ _ Hd). simpl.
    apply od_keys_get. by rewrite Hr.
  - unfold EnvModel.__getitem__. rewrite (inner_present _ _ _ _ Hd). by rewrite Hr.
  - intros Hnew. unfold EnvModel.state_action_pairs in *.
    assert (Hnone : od_get (s, a) m = None).
    { destruct (od_get (s, a) m) eqn:E; [| done].
      exfalso. apply Hnew, od_keys_get. by rewrite E. }
    subst v m'. rewrite getitem_value, getitem_state. unfold EnvModel.stored.
    rewrite Hnone. split; [done |].
    rewrite od_set_absent by done. unfold od_keys. by rewrite map_app.
Qed.

Lemma stored_increment key key' m :
  EnvModel.stored key' (EnvModel.increment m key)
  = EnvModel.stored key' m + (if decide (key = key') then 1 else 0).
Proof.
  unfold EnvModel.increment.
  pose proof (getitem_value key m) as Hv. pose proof (stored_getitem key key' m) as Hs.
  destruct (EnvModel.__getitem__ key m) as [v m1]. simpl in Hv, Hs.
  destruct (decide (key = key')) as [<- | Hne].
  - rewrite stored_setitem_eq. lia.
  - rewrite stored_setitem_ne by done. lia.
Qed.

(** X19: a model that starts empty and sees [M[key] += 1] for each observed
    transition holds, under every key, the number of times that key was
    observed. *)
Theorem env_model_counts_observations key
    (observed : list (State * Action * Reward * State)) :
  fst (EnvModel.__getitem__ key (foldl EnvModel.increment EnvModel.__init__ observed))
  = Z.of_nat (length (filter (fun k => k = key) observed)).
Proof.
  rewrite getitem_value.
  induction observed as [|k observed IH] using rev_ind.
  - by destruct key as [[[s a] r] s_].
  - rewrite foldl_snoc, stored_increment, IH, filter_app, length_app. simpl.
    rewrite filter_cons, filter_nil.
    destruct (decide (k = key)); simpl; lia.
Qed.

End env_model_facts.

Section env_model_queries.
Context {State Action Reward : Type}.
Context `{EqDecision State, EqDecision Action, EqDecision Reward}.
Implicit Types (m : EnvModel.t State Action Reward).

#[local] Open Scope R_scope.




Lemma leading_fold (outcome : State) m (ks : list (State * Action))
    (acc : list (State * Action)) :
  Forall (fun sa => is_Some (od_get sa m)) ks ->
  foldl (fun acc sa =>
           let (ro, m) := EnvModel.reward_outcome_pairs (fst sa) (snd sa) (snd acc) in
           let outcomes := map snd ro in
           if bool_decide (outcome ∈ outcomes) then (fst acc ++ [sa], m)
           else (fst acc, m))
        (acc, m) ks
  = (acc ++ filter (fun sa => outcome ∈ map snd (od_keys (default [] (od_get sa m))))
                   ks, m).
Proof.
  intros Hks. revert acc. induction Hks as [|[s a] ks [d Hd] _ IH]; intros acc.
  - simpl. by rewrite app_nil_r.
  - rewrite filter_cons, Hd.
    cbn [foldl fst snd].
    assert (Hstep : EnvModel.reward_outcome_pairs s a m = (od_keys d, m)).
    { unfold EnvModel.reward_outcome_pairs. by rewrite (inner_present _ _ _ _ Hd). }
    rewrite Hstep. cbn [default fst snd].
    case_decide as Hin.
    + rewrite bool_decide_eq_true_2 by done. rewrite IH.
      by rewrite <- app_assoc.
    + rewrite bool_decide_eq_false_2 by done. by rewrite IH.
Qed.

(** X21: [state_action_pairs_leading_to_outcome(outcome)] leaves the model as
    it is and returns, in the order of [state_action_pairs()], exactly the
    pairs [(s, a)] under which some [(r, outcome)] is registered, whatever
    its count, also a count of zero. *)
Theorem env_model_pairs_leading_to_outcome (outcome : State) m :
  snd (EnvModel.state_action_pairs_leading_to_outcome outcome m) = m
  /\ fst (EnvModel.state_action_pairs_leading_to_outcome outcome m)
     = filter (fun sa => outcome ∈ map snd (od_keys (default [] (od_get sa m))))
              (EnvModel.state_action_pairs m)
  /\ forall (s : State) (a : Action),
       (s, a) ∈ fst (EnvModel.state_action_pairs_leading_to_outcome outcome m)
       <-> (s, a) ∈ EnvModel.state_action_pairs m
           /\ exists r : Reward,
                (r, outcome) ∈ fst (EnvModel.reward_outcome_pairs s a m).
Proof.
  assert (Hfold : EnvModel.state_action_pairs_leading_to_outcome outcome m
                  = (filter (fun sa => outcome
                                       ∈ map snd (od_keys (default [] (od_get sa m))))
                            (EnvModel.state_action_pairs m), m)).
  { unfold EnvModel.state_action_pairs_leading_to_outcome.
    rewrite leading_fold; [done |].
    apply Forall_forall. intros sa Hsa. by apply od_keys_get. }
  rewrite Hfold. simpl. split; [done | split; [done |]].
  intros s a. rewrite list_elem_of_filter. unfold EnvModel.state_action_pairs.
  split.
  - intros [Hout Hin]. split; [done |].
    apply od_keys_get in Hin as [d Hd].
    unfold EnvModel.reward_outcome_pairs. rewrite (inner_present _ _ _ _ Hd).
    rewrite Hd in Hout. simpl in *.
    apply list_elem_of_In, in_map_iff in Hout as ([r o] & Ho & Hro).
    simpl in Ho. subst o. exists r. by apply list_elem_of_In.
  - intros [Hin (r & Hr)]. split; [| done].
    apply od_keys_get in Hin as [d Hd].
    unfold EnvModel.reward_outcome_pairs in Hr. rewrite (inner_present _ _ _ _ Hd) in Hr.
    rewrite Hd. simpl in *.
    apply list_elem_of_In, in_map_iff. exists (r, outcome).
    split; [done | by apply list_elem_of_In].
Qed.

End env_model_queries.

Lemma env_model_write_keeps_other_counts_witness :
  (0, 1, 5, 1) <> (0, 1, 0, 0)
  /\ fst (EnvModel.__getitem__ (0, 1, 0, 0)
            (EnvModel.__setitem__ (0, 1, 5, 1) 9 counted_model))
     = fst (EnvModel.__getitem__ (0, 1, 0, 0) counted_model).
Proof.
  assert (Hne : (0, 1, 5, 1) <> (0, 1, 0, 0)) by discriminate.
  split; [exact Hne |].
  exact (env_model_write_keeps_other_counts (0, 1, 5, 1) (0, 1, 0, 0) 9
           counted_model Hne).
Defined.

Lemma env_model_read_registers_witness :
  ((3, 4) ∉ EnvModel.state_action_pairs (@EnvModel.__init__ Z Z Z))
  /\ fst (EnvModel.__getitem__ (3, 4, 1, 2) (@EnvModel.__init__ Z Z Z)) = 0
  /\ EnvModel.state_action_pairs
       (snd (EnvModel.__getitem__ (3, 4, 1, 2) (@EnvModel.__init__ Z Z Z)))
     = EnvModel.state_action_pairs (@EnvModel.__init__ Z Z Z) ++ [(3, 4)].
Proof.
  assert (Hnew : (3, 4) ∉ EnvModel.state_action_pairs (@EnvModel.__init__ Z Z Z))
    by apply not_elem_of_nil.
  split; [exact Hnew |].
  exact (proj2 (proj2 (proj2
           (env_model_read_registers 3 4 1 2 (@EnvModel.__init__ Z Z Z)))) Hnew).
Defined.


(** ** [action_stats] and [obs_stats] *)

Section gym_stats_facts.





End gym_stats_facts.

Section gym_stats_claims.






End gym_stats_claims.



(** ** [StatisticCollection] *)

Section statistic_collection_facts.
Context {Measures Aggregator : Type}.
Context `{!StatisticCollection.Impl Measures Aggregator}.
Implicit Types (self : StatisticCollection.t Measures Aggregator) (name : string).

Lemma init_statistics (stats : list string) (measures : Measures) (keep : bool)
    (d : gmap string Aggregator) name :
  foldl (fun d stat => <[stat := StatisticCollection.StatisticAggregator measures keep]> d)
        d stats !! name
  = if decide (name ∈ stats)
    then Some (StatisticCollection.StatisticAggregator measures keep)
    else d !! name.
Proof.
  revert d. induction stats as [|stat stats IH]; intros d; cbn [foldl].
  - case_decide as Hin; [by apply elem_of_nil in Hin | done].
  - rewrite IH. destruct (decide (name ∈ stats)) as [Hin | Hout].
    + rewrite decide_True; [done | by right].
    + destruct (decide (name = stat)) as [-> | Hne].
      * rewrite decide_True by left. by rewrite lookup_insert_eq.
      * rewrite decide_False by (by intros [? | ?]%elem_of_cons).
        by rewrite lookup_insert_ne.
Qed.

(** X24: a new collection answers [__getattr__] with a new aggregator for
    exactly the names in [stats] and raises [AttributeError] for every other
    name; its length is the number of distinct names in [stats]. *)
Theorem statistic_collection_init (stats : list string) (measures : Measures)
    (keep : bool) name :
  StatisticCollection.__getattr__ name
    (StatisticCollection.__init__ stats measures keep)
  = (if decide (name ∈ stats)
     then inr (StatisticCollection.StatisticAggregator measures keep)
     else inl StatisticCollection.AttributeError)
  /\ StatisticCollection.__len__ (StatisticCollection.__init__ stats measures keep)
     = length (remove_dups stats).
Proof.
  split.
  - unfold StatisticCollection.__getattr__, StatisticCollection.__init__. simpl.
    rewrite init_statistics, lookup_empty. by destruct (decide (name ∈ stats)).
  - unfold StatisticCollection.__len__, StatisticCollection.__init__. simpl.
    rewrite <- size_dom.
    assert (Hdom : dom (foldl (fun d stat =>
                     <[stat := StatisticCollection.StatisticAggregator measures keep]> d)
                     (∅ : gmap string Aggregator) stats)
                   = list_to_set (remove_dups stats)).
    { apply set_eq. intros x. rewrite elem_of_dom, init_statistics, lookup_empty.
      rewrite elem_of_list_to_set, elem_of_remove_dups.
      destruct (decide (x ∈ stats)) as [Hin | Hout];
        [split; [done | by eexists] | split; [by intros [? ?] | done]]. }
    rewrite Hdom. apply size_list_to_set, NoDup_remove_dups.
Qed.

(** X25: [add_statistic(name)] makes [__getattr__(name)] answer with a new
    aggregator, also when the name was present (the old aggregator is
    replaced); every other name answers as before, and the length grows by
    one exactly if the name was new. *)
Theorem statistic_collection_add name self :
  StatisticCollection.__getattr__ name (StatisticCollection.add_statistic name self)
  = inr (StatisticCollection.StatisticAggregator
           (StatisticCollection._measures self)
           (StatisticCollection._keep_measure_history self))
  /\ (forall name', name' <> name ->
        StatisticCollection.__getattr__ name'
          (StatisticCollection.add_statistic name self)
        = StatisticCollection.__getattr__ name' self)
  /\ StatisticCollection.__len__ (StatisticCollection.add_statistic name self)
     = match StatisticCollection.__getattr__ name self with
       | inr _ => StatisticCollection.__len__ self
       | inl _ => Datatypes.S (StatisticCollection.__len__ self)
       end.
Proof.
  unfold StatisticCollection.__getattr__, StatisticCollection.add_statistic,
    StatisticCollection.__len__. simpl.
  split; [| split].
  - by rewrite lookup_insert_eq.
  - intros name' Hne. by rewrite lookup_insert_ne.
  - destruct (StatisticCollection._statistics self !! name) as [old|] eqn:Hold.
    + by apply map_size_insert_Some.
    + by apply map_size_insert_None.
Qed.

(** X26: [remove_statistic(name)] raises [KeyError] and changes nothing if the
    name is missing; otherwise [__getattr__(name)] raises [AttributeError]
    afterwards, every other name answers as before and the length has dropped
    by one. Removing a name that [add_statistic] has just introduced gives
    the collection back. *)
Theorem statistic_collection_remove name self :
  match StatisticCollection.remove_statistic name self with
  | inl e =>
      e = StatisticCollection.KeyError
      /\ StatisticCollection.__getattr__ name self
         = inl StatisticCollection.AttributeError
  | inr self' =>
      StatisticCollection.__getattr__ name self'
      = inl StatisticCollection.AttributeError
      /\ (forall name', name' <> name ->
            StatisticCollection.__getattr__ name' self'
            = StatisticCollection.__getattr__ name' self)
      /\ Datatypes.S (StatisticCollection.__len__ self')
         = StatisticCollection.__len__ self
  end
  /\ (StatisticCollection.__getattr__ name self
      = inl StatisticCollection.AttributeError ->
      StatisticCollection.remove_statistic name
        (StatisticCollection.add_statistic name self)
      = inr self).
Proof.
  unfold StatisticCollection.remove_statistic, StatisticCollection.__getattr__,
    StatisticCollection.__len__, StatisticCollection.add_statistic. simpl.
  split.
  - destruct (StatisticCollection._statistics self !! name) as [old|] eqn:Hold;
      simpl; [| done].
    split; [by rewrite lookup_delete_eq | split].
    + intros name' Hne. by rewrite lookup_delete_ne.
    + rewrite <- (insert_delete_id _ _ _ Hold) at 2.
      rewrite map_size_insert_None; [done | apply lookup_delete_eq].
  - rewrite lookup_insert_eq.
    destruct (StatisticCollection._statistics self !! name) eqn:Hold; [done |].
    intros _. f_equal. destruct self as [d measures keep]. simpl in *.
    f_equal. by apply delete_insert_id.
Qed.

End statistic_collection_facts.

Lemma statistic_collection_add_witness :
  "lengths"%string <> "rewards"%string
  /\ StatisticCollection.__getattr__ "lengths"
       (@StatisticCollection.add_statistic _ _ list_aggregators "rewards"
          default_collection)
     = StatisticCollection.__getattr__ "lengths" default_collection.
Proof.
  assert (Hne : "lengths"%string <> "rewards"%string) by discriminate.
  split; [exact Hne |].
  exact (proj1 (proj2 (@statistic_collection_add _ _ list_aggregators "rewards"
                         default_collection)) "lengths"%string Hne).
Defined.

Lemma statistic_collection_remove_witness :
  StatisticCollection.__getattr__ "rewards" default_collection
  = inl StatisticCollection.AttributeError
  /\ StatisticCollection.remove_statistic "rewards"
       (@StatisticCollection.add_statistic _ _ list_aggregators "rewards"
          default_collection)
     = inr default_collection.
Proof.
  assert (Hmissing : StatisticCollection.__getattr__ "rewards" default_collection
                     = inl StatisticCollection.AttributeError) by reflexivity.
  split; [exact Hmissing |].
  exact (proj2 (@statistic_collection_remove _ _ list_aggregators "rewards"
                  default_collection) Hmissing).
Defined.

(** ** [Agent.__parse_set_attr] *)

Section parse_set_attr_facts.
Context {Value : Type}.
Implicit Types (kwargs : list (string * Value)) (self : gmap string Value).

Lemma lower_letter_not_upper (c : Ascii.ascii) :
  ParseSetAttr.is_upper_letter (ParseSetAttr.lower_letter c) = false.
Proof.
  unfold ParseSetAttr.lower_letter.
  destruct (ParseSetAttr.is_upper_letter c) eqn:Hup; [| done].
  unfold ParseSetAttr.is_upper_letter in *.
  apply andb_true_iff in Hup as [Hlo%Nat.leb_le Hhi%Nat.leb_le].
  rewrite Ascii.nat_ascii_embedding by lia.
  apply andb_false_iff. right. apply Nat.leb_gt. lia.
Qed.

Lemma lower_has_no_upper (k : string) :
  ParseSetAttr.has ParseSetAttr.is_upper_letter (ParseSetAttr.lower k) = false.
Proof.
  induction k as [|c k IH]; simpl; [done |].
  by rewrite lower_letter_not_upper, IH.
Qed.

(** X27: the attribute assigned for an upper-case keyword is the underscore
    followed by the keyword in lower case, a name that is not upper case
    itself; any other keyword names its attribute directly. Hence naming an
    attribute is idempotent: the attribute of a keyword is its own
    attribute. *)
Theorem attribute_name_idempotent (k : string) :
  ParseSetAttr.isupper (ParseSetAttr.attribute k) = false
  /\ ParseSetAttr.attribute (ParseSetAttr.attribute k) = ParseSetAttr.attribute k
  /\ (ParseSetAttr.isupper k = true ->
      ParseSetAttr.attribute k = String.append "_" (ParseSetAttr.lower k)).
Proof.
  assert (Hnot : ParseSetAttr.isupper (ParseSetAttr.attribute k) = false).
  { unfold ParseSetAttr.attribute.
    destruct (ParseSetAttr.isupper k) eqn:Hup; [| done].
    unfold ParseSetAttr.isupper.
    change (String.append "_" (ParseSetAttr.lower k))
      with (String.String (Ascii.ascii_of_nat 95) (ParseSetAttr.lower k)).
    cbn [ParseSetAttr.has]. by rewrite lower_has_no_upper. }
  split; [exact Hnot | split].
  - unfold ParseSetAttr.attribute at 1. by rewrite Hnot.
  - intros Hup. unfold ParseSetAttr.attribute. by rewrite Hup.
Qed.


End parse_set_attr_facts.

Lemma attribute_name_idempotent_witness :
  ParseSetAttr.isupper "EXPLORATION_EPSILON_START" = true
  /\ ParseSetAttr.attribute "EXPLORATION_EPSILON_START" = "_exploration_epsilon_start"%string.
Proof.
  split; [reflexivity |].
  exact (proj2 (proj2 (attribute_name_idempotent "EXPLORATION_EPSILON_START"))
           eq_refl).
Defined.
